(** * The action dispatch protocol of the WeChat SDK, checked against its code

    The development follows the Go sources:
    - [corp/corp.go]: the [Corp] client, its constructor [New] with its
      options, the token request [AccessToken] and the dispatcher [Do];
    - [oa/menu_test.go]: the tests of the menu actions, from which the menu
      data model and its wire names are read.

    Go code that calls closures (the methods of a [wx.Action], of a
    [wx.HTTPClient]) is embedded in a state monad over the store those
    closures may read and write; every call the dispatcher makes is recorded,
    with its arguments and results, in a trace. *)

From Stdlib Require Import ZArith List String Ascii Bool Lia DecimalString.
From Stdlib Require Strings.Byte.
Import ListNotations.

Set Warnings "-register-all".

Local Open Scope string_scope.
Local Open Scope list_scope.

(** ** Go base types *)

Module Go.

(** [[]byte]. *)
Definition bytes : Type := list Byte.byte.

(** [[]byte(s)] and [string(b)]. *)
Definition bytes_of_string (s : string) : bytes := list_byte_of_string s.

Definition string_of_bytes (b : bytes) : string := string_of_list_byte b.

(** The verb [%d] of package fmt on an integer: its decimal digits, with a
    minus sign when negative. *)
Definition fmt_d (n : Z) : string := NilZero.string_of_int (Z.to_int n).

(** [fmt.Sprintf("%d|%s", code, msg)], the text of an envelope error. *)
Definition Sprintf_code_msg (code : Z) (msg : string) : string :=
  (fmt_d code ++ "|" ++ msg)%string.

(** [http.MethodGet]. *)
Definition MethodGet : string := "GET".

End Go.

Import Go.

(** ** JSON values, their text, and decoding into structs

    What encoding/json does for the structs of this repository: a reader of
    JSON text, and the rules by which the members of an object are stored
    into the fields of a struct. Numbers are integers here (the only ones
    the payloads at hand carry); text with a fraction, an exponent or a
    [\u] escape is not read. *)

Module Json.

Inductive value : Type :=
| Null
| Bool (b : bool)
| Number (n : Z)
| Str (s : string)
| Array (items : list value)
| Object (members : list (string * value)).

Definition quote : ascii := "034"%char.

Definition backslash : ascii := "\"%char.

Definition is_space (c : ascii) : bool :=
  (c =? " ")%char || (c =? "009")%char || (c =? "010")%char
  || (c =? "013")%char.

Fixpoint skip_space (s : string) : string :=
  match s with
  | String c rest => if is_space c then skip_space rest else s
  | EmptyString => s
  end.

Fixpoint strip_prefix (p s : string) : option string :=
  match p, s with
  | EmptyString, _ => Some s
  | String a p', String b s' =>
      if (a =? b)%char then strip_prefix p' s' else None
  | String _ _, EmptyString => None
  end.

(** The character an escape sequence stands for, from the one after the
    backslash. *)
Definition unescape (c : ascii) : option ascii :=
  if (c =? quote)%char then Some quote
  else if (c =? backslash)%char then Some backslash
  else if (c =? "/")%char then Some "/"%char
  else if (c =? "b")%char then Some "008"%char
  else if (c =? "f")%char then Some "012"%char
  else if (c =? "n")%char then Some "010"%char
  else if (c =? "r")%char then Some "013"%char
  else if (c =? "t")%char then Some "009"%char
  else None.

(** The characters of a string literal, from after its opening quote to its
    closing quote, and the text that follows. *)
Fixpoint read_chars (s : string) : option (string * string) :=
  match s with
  | EmptyString => None
  | String c rest =>
      if (c =? quote)%char then Some (EmptyString, rest)
      else if (c =? backslash)%char then
        match rest with
        | String e rest' =>
            match unescape e, read_chars rest' with
            | Some c', Some (t, r) => Some (String c' t, r)
            | _, _ => None
            end
        | EmptyString => None
        end
      else
        match read_chars rest with
        | Some (t, r) => Some (String c t, r)
        | None => None
        end
  end.

Definition digit (c : ascii) : option Z :=
  let n := Z.of_nat (nat_of_ascii c) in
  if ((48 <=? n) && (n <=? 57))%Z then Some (n - 48)%Z else None.

Fixpoint read_digits (s : string) (acc : Z) : Z * string :=
  match s with
  | String c rest =>
      match digit c with
      | Some d => read_digits rest (10 * acc + d)%Z
      | None => (acc, s)
      end
  | EmptyString => (acc, s)
  end.

Definition starts_with_digit (s : string) : bool :=
  match s with
  | String c _ => match digit c with Some _ => true | None => false end
  | EmptyString => false
  end.

Definition ends_integer (s : string) : bool :=
  match s with
  | String c _ => negb ((c =? ".")%char || (c =? "e")%char || (c =? "E")%char)
  | EmptyString => true
  end.

Definition read_number (s : string) : option (Z * string) :=
  let '(neg, s1) :=
    match s with
    | String c rest => if (c =? "-")%char then (true, rest) else (false, s)
    | EmptyString => (false, s)
    end in
  if starts_with_digit s1 then
    let '(n, rest) := read_digits s1 0%Z in
    if ends_integer rest then Some (if neg then (- n)%Z else n, rest)
    else None
  else None.

(** The value at the head of a text and the text after it; [fuel] bounds
    the nesting and the number of items read. *)
Fixpoint read_value (fuel : nat) (s : string) {struct fuel}
    : option (value * string) :=
  match fuel with
  | O => None
  | S fuel' =>
      match skip_space s with
      | EmptyString => None
      | String c rest as s1 =>
          if (c =? quote)%char then
            match read_chars rest with
            | Some (t, r) => Some (Str t, r)
            | None => None
            end
          else if (c =? "[")%char then
            match skip_space rest with
            | String c' r =>
                if (c' =? "]")%char then Some (Array [], r)
                else match read_items fuel' rest with
                     | Some (vs, r') => Some (Array vs, r')
                     | None => None
                     end
            | EmptyString => None
            end
          else if (c =? "{")%char then
            match skip_space rest with
            | String c' r =>
                if (c' =? "}")%char then Some (Object [], r)
                else match read_members fuel' rest with
                     | Some (ms, r') => Some (Object ms, r')
                     | None => None
                     end
            | EmptyString => None
            end
          else
            match strip_prefix "null" s1, strip_prefix "true" s1,
                  strip_prefix "false" s1 with
            | Some r, _, _ => Some (Null, r)
            | _, Some r, _ => Some (Bool true, r)
            | _, _, Some r => Some (Bool false, r)
            | None, None, None =>
                match read_number s1 with
                | Some (n, r) => Some (Number n, r)
                | None => None
                end
            end
      end
  end

with read_items (fuel : nat) (s : string) {struct fuel}
    : option (list value * string) :=
  match fuel with
  | O => None
  | S fuel' =>
      match read_value fuel' s with
      | Some (v, rest) =>
          match skip_space rest with
          | String c r =>
              if (c =? ",")%char then
                match read_items fuel' r with
                | Some (vs, r') => Some (v :: vs, r')
                | None => None
                end
              else if (c =? "]")%char then Some ([v], r)
              else None
          | EmptyString => None
          end
      | None => None
      end
  end

with read_members (fuel : nat) (s : string) {struct fuel}
    : option (list (string * value) * string) :=
  match fuel with
  | O => None
  | S fuel' =>
      match skip_space s with
      | String q rest =>
          if (q =? quote)%char then
            match read_chars rest with
            | Some (k, r0) =>
                match skip_space r0 with
                | String colon r1 =>
                    if (colon =? ":")%char then
                      match read_value fuel' r1 with
                      | Some (v, r2) =>
                          match skip_space r2 with
                          | String c r =>
                              if (c =? ",")%char then
                                match read_members fuel' r with
                                | Some (ms, r') => Some ((k, v) :: ms, r')
                                | None => None
                                end
                              else if (c =? "}")%char then Some ([(k, v)], r)
                              else None
                          | EmptyString => None
                          end
                      | None => None
                      end
                    else None
                | EmptyString => None
                end
            | None => None
            end
          else None
      | EmptyString => None
      end
  end.

(** A whole text as one value. Every step of the reader consumes a
    character, so the length of the text is fuel enough. *)
Definition parse (s : string) : option value :=
  match read_value (S (String.length s)) s with
  | Some (v, rest) =>
      match skip_space rest with
      | EmptyString => Some v
      | String _ _ => None
      end
  | None => None
  end.

(** JSON text written with ['] where the double quote stands, as the
    payloads of the tests are quoted below. *)
Fixpoint requote (s : string) : string :=
  match s with
  | EmptyString => EmptyString
  | String c rest =>
      String (if (c =? "'")%char then quote else c) (requote rest)
  end.

(** *** Members into fields *)

(** A key names the field tagged [key] when the two are equal up to case,
    as [bytes.EqualFold] has it. The tags at hand are ASCII, and the letters
    that fold to an ASCII letter are its two cases, the long s (bytes 197
    191) for [s] and the Kelvin sign (bytes 226 132 170) for [k]. *)
Definition lower (c : ascii) : ascii :=
  let n := nat_of_ascii c in
  if ((65 <=? n) && (n <=? 90))%nat then ascii_of_nat (n + 32) else c.

Fixpoint fold_name (s : string) : string :=
  match s with
  | EmptyString => EmptyString
  | String c rest =>
      match rest with
      | String c2 rest2 =>
          if ((c =? "197") && (c2 =? "191"))%char
          then String "s" (fold_name rest2)
          else
            match rest2 with
            | String c3 rest3 =>
                if ((c =? "226") && (c2 =? "132") && (c3 =? "170"))%char
                then String "k" (fold_name rest3)
                else String (lower c) (fold_name rest)
            | EmptyString => String (lower c) (fold_name rest)
            end
      | EmptyString => String (lower c) (fold_name rest)
      end
  end.

Definition names (k key : string) : bool :=
  (fold_name k =? fold_name key)%string.

Definition in_int64 (n : Z) : bool :=
  ((- 2 ^ 63 <=? n) && (n <? 2 ^ 63))%Z.

(** No member of [ms] names [key]. *)
Definition lacks (key : string) (ms : list (string * value)) : bool :=
  forallb (fun m => negb (names (fst m) key)) ms.

(** [ms] has the member [key: v], and no other member names [key]. *)
Definition the (key : string) (v : value) (ms : list (string * value))
    : Prop :=
  exists before after,
    ms = before ++ (key, v) :: after
    /\ lacks key before = true /\ lacks key after = true.

(** The decoder visits the members of an object in order and stores each
    one whose key names a field into that field, so the last of several
    wins. Told field by field: the value a field tagged [key] holds after
    the members [ms], from the value [cur] it held before. [None] is a
    decoding error. *)
Section Fields.

Variable key : string.

(** A [string] field: a JSON string is stored, [null] changes nothing. *)
Fixpoint string_field (ms : list (string * value)) (cur : string)
    : option string :=
  match ms with
  | [] => Some cur
  | (k, v) :: rest =>
      if names k key then
        match v with
        | Str s => string_field rest s
        | Null => string_field rest cur
        | _ => None
        end
      else string_field rest cur
  end.

(** An [int64] field. *)
Fixpoint int64_field (ms : list (string * value)) (cur : Z) : option Z :=
  match ms with
  | [] => Some cur
  | (k, v) :: rest =>
      if names k key then
        match v with
        | Number n => if in_int64 n then int64_field rest n else None
        | Null => int64_field rest cur
        | _ => None
        end
      else int64_field rest cur
  end.

Variable A : Type.
Variable zero : A.
Variable dec : value -> A -> option A.

(** The elements of a slice of struct pointers: item [i] is decoded into
    element [i] of the slice as it was, or into a new struct past its end.
    A [null] item, a nil pointer in Go, is outside the model. *)
Fixpoint elements (items : list value) (cur : list A) : option (list A) :=
  match items with
  | [] => Some []
  | v :: items' =>
      match v with
      | Null => None
      | _ =>
          match dec v (hd zero cur), elements items' (tl cur) with
          | Some a, Some l => Some (a :: l)
          | _, _ => None
          end
      end
  end.

(** A field that is a slice of struct pointers; [None] is the nil slice,
    which [null] stores. An array always leaves a non-nil slice. *)
Fixpoint slice_field (ms : list (string * value)) (cur : option (list A))
    : option (option (list A)) :=
  match ms with
  | [] => Some cur
  | (k, v) :: rest =>
      if names k key then
        match v with
        | Array items =>
            match elements items
                    (match cur with Some l => l | None => [] end) with
            | Some l => slice_field rest (Some l)
            | None => None
            end
        | Null => slice_field rest None
        | _ => None
        end
      else slice_field rest cur
  end.

(** A field that is a pointer to a struct; [None] is the nil pointer. *)
Fixpoint pointer_field (ms : list (string * value)) (cur : option A)
    : option (option A) :=
  match ms with
  | [] => Some cur
  | (k, v) :: rest =>
      if names k key then
        match v with
        | Null => pointer_field rest None
        | _ =>
            match dec v (match cur with Some a => a | None => zero end) with
            | Some a => pointer_field rest (Some a)
            | None => None
            end
        end
      else pointer_field rest cur
  end.

End Fields.

Arguments elements {A} zero dec items cur.
Arguments slice_field key {A} zero dec ms cur.
Arguments pointer_field key {A} zero dec ms cur.

(** A [string] field tagged [omitempty]: no member when it is empty. *)
Definition omitempty (key : string) (s : string) : list (string * value) :=
  match s with
  | EmptyString => []
  | String _ _ => [(key, Str s)]
  end.

(** The members of an object. *)
Definition members_of (v : value) : list (string * value) :=
  match v with
  | Object ms => ms
  | _ => []
  end.

(** The value of the one member of [ms] that names [key], when there is
    exactly one and its key is [key] itself. *)
Fixpoint lookup (key : string) (ms : list (string * value)) : option value :=
  match ms with
  | [] => None
  | (k, v) :: rest =>
      if (k =? key)%string then (if lacks key rest then Some v else None)
      else if names k key then None
      else lookup key rest
  end.

(** *** Facts on fields *)

Example names_folds_case :
  names "Tag_ID" "tag_id" = true
  /\ names "ſex" "sex" = true
  /\ names "sex" "key" = false.
Proof. repeat split; reflexivity. Qed.

Lemma names_refl : forall key, names key key = true.
Proof. intros key. apply String.eqb_refl. Qed.

Lemma lacks_cons :
  forall key k v ms,
    lacks key ((k, v) :: ms) = true ->
    names k key = false /\ lacks key ms = true.
Proof.
  intros key k v ms H. unfold lacks in H. simpl in H.
  apply andb_true_iff in H. destruct H as [Hk Hms].
  apply negb_true_iff in Hk. split; assumption.
Qed.

Lemma lacks_app :
  forall key l1 l2,
    lacks key (l1 ++ l2) = lacks key l1 && lacks key l2.
Proof. intros key l1 l2. apply forallb_app. Qed.

Lemma lacks_omitempty :
  forall key k s, names k key = false -> lacks key (omitempty k s) = true.
Proof.
  intros key k [ | c s ] Hk; unfold lacks; simpl; [ | rewrite Hk ];
    reflexivity.
Qed.

Lemma lookup_the :
  forall key ms v, lookup key ms = Some v -> the key v ms.
Proof.
  intros key ms v. induction ms as [ | [k w] ms IH ]; simpl; intros H.
  - discriminate.
  - destruct (k =? key)%string eqn:Hk.
    + apply String.eqb_eq in Hk. subst k.
      destruct (lacks key ms) eqn:Hl; [ | discriminate ].
      injection H as ->. exists [], ms. repeat split; assumption.
    + destruct (names k key) eqn:Hn; [ discriminate | ].
      destruct (IH H) as (before & after & -> & Hb & Ha).
      exists ((k, w) :: before), after. repeat split; [ | assumption ].
      unfold lacks. simpl. rewrite Hn. exact Hb.
Qed.

Section FieldFacts.

Variable key : string.

Lemma string_field_app :
  forall l1 l2 cur,
    string_field key (l1 ++ l2) cur
    = match string_field key l1 cur with
      | Some c => string_field key l2 c
      | None => None
      end.
Proof.
  induction l1 as [ | [k v] l1 IH ]; intros l2 cur; simpl.
  - reflexivity.
  - destruct (names k key); [ destruct v | ]; auto.
Qed.

Lemma string_field_lacks :
  forall ms cur, lacks key ms = true -> string_field key ms cur = Some cur.
Proof.
  induction ms as [ | [k v] ms IH ]; intros cur H; simpl.
  - reflexivity.
  - apply lacks_cons in H. destruct H as [Hk Hms]. rewrite Hk. auto.
Qed.

Lemma string_field_the :
  forall ms cur s, the key (Str s) ms -> string_field key ms cur = Some s.
Proof.
  intros ms cur s (before & after & -> & Hb & Ha).
  rewrite string_field_app, (string_field_lacks before) by assumption.
  simpl. rewrite names_refl. apply string_field_lacks. assumption.
Qed.

Lemma string_field_omitempty :
  forall s, string_field key (omitempty key s) EmptyString = Some s.
Proof.
  intros [ | c s ]; simpl; [ | rewrite names_refl ]; reflexivity.
Qed.

Lemma string_field_omitempty_other :
  forall k s cur,
    names k key = false -> string_field key (omitempty k s) cur = Some cur.
Proof.
  intros k [ | c s ] cur Hk; simpl; [ | rewrite Hk ]; reflexivity.
Qed.

Lemma int64_field_app :
  forall l1 l2 cur,
    int64_field key (l1 ++ l2) cur
    = match int64_field key l1 cur with
      | Some c => int64_field key l2 c
      | None => None
      end.
Proof.
  induction l1 as [ | [k v] l1 IH ]; intros l2 cur; simpl.
  - reflexivity.
  - destruct (names k key); [ destruct v | ]; auto.
    destruct (in_int64 n); auto.
Qed.

Lemma int64_field_lacks :
  forall ms cur, lacks key ms = true -> int64_field key ms cur = Some cur.
Proof.
  induction ms as [ | [k v] ms IH ]; intros cur H; simpl.
  - reflexivity.
  - apply lacks_cons in H. destruct H as [Hk Hms]. rewrite Hk. auto.
Qed.

Variable A : Type.
Variable zero : A.
Variable dec : value -> A -> option A.

Lemma slice_field_app :
  forall l1 l2 cur,
    slice_field key zero dec (l1 ++ l2) cur
    = match slice_field key zero dec l1 cur with
      | Some c => slice_field key zero dec l2 c
      | None => None
      end.
Proof.
  induction l1 as [ | [k v] l1 IH ]; intros l2 cur; simpl.
  - reflexivity.
  - destruct (names k key); [ destruct v | ]; auto.
    destruct (elements zero dec items _); auto.
Qed.

Lemma slice_field_lacks :
  forall ms cur,
    lacks key ms = true -> slice_field key zero dec ms cur = Some cur.
Proof.
  induction ms as [ | [k v] ms IH ]; intros cur H; simpl.
  - reflexivity.
  - apply lacks_cons in H. destruct H as [Hk Hms]. rewrite Hk. auto.
Qed.

Lemma slice_field_the :
  forall ms cur items,
    the key (Array items) ms ->
    slice_field key zero dec ms cur
    = match elements zero dec items
              (match cur with Some l => l | None => [] end) with
      | Some l => Some (Some l)
      | None => None
      end.
Proof.
  intros ms cur items (before & after & -> & Hb & Ha).
  rewrite slice_field_app, (slice_field_lacks before) by assumption.
  simpl. rewrite names_refl.
  destruct (elements zero dec items _); [ | reflexivity ].
  apply slice_field_lacks. assumption.
Qed.

Lemma slice_field_omitempty :
  forall k s rest cur,
    names k key = false ->
    slice_field key zero dec (omitempty k s ++ rest) cur
    = slice_field key zero dec rest cur.
Proof.
  intros k [ | c s ] rest cur Hk; simpl; [ | rewrite Hk ]; reflexivity.
Qed.

Lemma pointer_field_app :
  forall l1 l2 cur,
    pointer_field key zero dec (l1 ++ l2) cur
    = match pointer_field key zero dec l1 cur with
      | Some c => pointer_field key zero dec l2 c
      | None => None
      end.
Proof.
  induction l1 as [ | [k v] l1 IH ]; intros l2 cur; simpl.
  - reflexivity.
  - destruct (names k key); [ | auto ].
    destruct v; auto;
      match goal with |- context [dec ?v ?c] => destruct (dec v c) end; auto.
Qed.

Lemma pointer_field_lacks :
  forall ms cur,
    lacks key ms = true -> pointer_field key zero dec ms cur = Some cur.
Proof.
  induction ms as [ | [k v] ms IH ]; intros cur H; simpl.
  - reflexivity.
  - apply lacks_cons in H. destruct H as [Hk Hms]. rewrite Hk. auto.
Qed.

Lemma pointer_field_the :
  forall ms cur members,
    the key (Object members) ms ->
    pointer_field key zero dec ms cur
    = match dec (Object members)
              (match cur with Some a => a | None => zero end) with
      | Some a => Some (Some a)
      | None => None
      end.
Proof.
  intros ms cur members (before & after & -> & Hb & Ha).
  rewrite pointer_field_app, (pointer_field_lacks before) by assumption.
  simpl. rewrite names_refl.
  destruct (dec (Object members) _); [ | reflexivity ].
  apply pointer_field_lacks. assumption.
Qed.

(** Decoding the encodings of a list into a fresh slice. *)
Lemma elements_map :
  forall (B : Type) (enc : B -> value) (norm : B -> A) (l : list B),
    Forall (fun b => enc b <> Null /\ dec (enc b) zero = Some (norm b)) l ->
    elements zero dec (map enc l) [] = Some (map norm l).
Proof.
  intros B enc norm l H. induction H as [ | b l [Hnull Hdec] _ IH ]; simpl.
  - reflexivity.
  - rewrite Hdec, IH. destruct (enc b); try reflexivity.
    exfalso. apply Hnull. reflexivity.
Qed.

End FieldFacts.

Lemma int64_field_the :
  forall key ms cur n,
    the key (Number n) ms -> in_int64 n = true ->
    int64_field key ms cur = Some n.
Proof.
  intros key ms cur n (before & after & -> & Hb & Ha) Hn.
  rewrite int64_field_app, (int64_field_lacks key before) by assumption.
  simpl. rewrite names_refl, Hn. apply int64_field_lacks. assumption.
Qed.

(** *** Fields of other kinds *)

(** The values of an [int] of [bits] bits. *)
Definition in_int (bits : Z) (n : Z) : bool :=
  ((- 2 ^ (bits - 1) <=? n) && (n <? 2 ^ (bits - 1)))%Z.

Section NumberFields.

Variable key : string.
Variable bits : Z.

(** An [int] field, on a platform whose [int] has [bits] bits. *)
Fixpoint int_field (ms : list (string * value)) (cur : Z) : option Z :=
  match ms with
  | [] => Some cur
  | (k, v) :: rest =>
      if names k key then
        match v with
        | Number n => if in_int bits n then int_field rest n else None
        | Null => int_field rest cur
        | _ => None
        end
      else int_field rest cur
  end.

(** The elements of a slice of [int64]: item [i] is stored in element [i];
    a [null] item leaves the element as it was, zero past the end. *)
Fixpoint int64_elements (items : list value) (cur : list Z)
    : option (list Z) :=
  match items with
  | [] => Some []
  | v :: items' =>
      match match v with
            | Number n => if in_int64 n then Some n else None
            | Null => Some (hd 0%Z cur)
            | _ => None
            end,
            int64_elements items' (tl cur) with
      | Some a, Some l => Some (a :: l)
      | _, _ => None
      end
  end.

(** A field that is a slice of [int64]. *)
Fixpoint int64_slice_field (ms : list (string * value))
    (cur : option (list Z)) : option (option (list Z)) :=
  match ms with
  | [] => Some cur
  | (k, v) :: rest =>
      if names k key then
        match v with
        | Array items =>
            match int64_elements items
                    (match cur with Some l => l | None => [] end) with
            | Some l => int64_slice_field rest (Some l)
            | None => None
            end
        | Null => int64_slice_field rest None
        | _ => None
        end
      else int64_slice_field rest cur
  end.


Lemma int64_slice_field_lacks :
  forall ms cur, lacks key ms = true -> int64_slice_field ms cur = Some cur.
Proof.
  induction ms as [ | [k v] ms IH ]; intros cur H; simpl.
  - reflexivity.
  - apply lacks_cons in H. destruct H as [Hk Hms]. rewrite Hk. auto.
Qed.

(** A number where a string is expected is a decoding error. *)
Lemma string_field_number :
  forall ms cur n, the key (Number n) ms -> string_field key ms cur = None.
Proof.
  intros ms cur n (before & after & -> & Hb & Ha).
  rewrite string_field_app, (string_field_lacks key before) by assumption.
  simpl. rewrite names_refl. reflexivity.
Qed.

End NumberFields.

(** One element that cannot be decoded makes the slice an error. *)
Lemma elements_error :
  forall (A : Type) (zero : A) (dec : value -> A -> option A) items cur v,
    In v items ->
    (forall c, dec v c = None) ->
    elements zero dec items cur = None.
Proof.
  intros A zero dec items. induction items as [ | w items IH ];
    intros cur v Hin Hdec; simpl.
  - contradiction.
  - destruct Hin as [-> | Hin].
    + rewrite Hdec. destruct v; reflexivity.
    + rewrite (IH (tl cur) v Hin Hdec).
      destruct w; try reflexivity;
        match goal with |- context [dec ?x ?c] => destruct (dec x c) end;
        reflexivity.
Qed.


End Json.

(** ** Package corp *)

Module corp.

Section Dispatcher.

(** The store: everything the closures of an action, of a transport or of a
    nonce generator can read or write (the caller's destinations included). *)
Variable Store : Type.

(** Non-nil values of Go's [error] interface; [None] is [nil]. [Error] is
    the method of the interface, [fmt_Errorf] what [fmt.Errorf] builds from
    an already formatted text (the format used has no [%w]). *)
Variable error : Type.
Variable Error : error -> string.
Variable fmt_Errorf : string -> error.
Hypothesis Error_fmt_Errorf : forall s, Error (fmt_Errorf s) = s.

(** [context.Context], [wx.HTTPOption], [wx.UploadForm] and [*http.Client]:
    opaque to this package, only passed on. *)
Variable Ctx : Type.
Variable HTTPOption : Type.
Variable UploadFormT : Type.
Variable HttpClientT : Type.

(** Package gjson (github.com/tidwall/gjson), as far as [corp.go] uses it:
    [ParseBytes], [Result.Get], and the conversions [Int] and [String] of a
    result. [Exists] tells a path that was found from one that was not; a
    result that does not exist converts to the integer zero. *)
Variable Result : Type.
Variable gjson_ParseBytes : bytes -> Result.
Variable gjson_Get : Result -> string -> Result.
Variable gjson_Exists : Result -> bool.
Variable gjson_Int : Result -> Z.
Variable gjson_String : Result -> string.
Hypothesis gjson_Int_missing :
  forall r, gjson_Exists r = false -> gjson_Int r = 0%Z.

(** The [AccessToken] struct (declared elsewhere in the package), the value
    [new(AccessToken)] points to, and [json.Unmarshal] into such a pointer:
    the struct after the call, and the error returned. *)
Variable AccessTokenT : Type.
Variable new_AccessToken : AccessTokenT.
Variable json_Unmarshal : bytes -> AccessTokenT -> AccessTokenT * option error.

(** [urls.CorpCgiBinAccessToken]. *)
Variable urls_CorpCgiBinAccessToken : string.

(** *** Effects and traces *)

(** A Go closure returning an [A]: a function of the store. *)
Definition Eff (A : Type) : Type := Store -> A * Store.

(** type Action interface (package wx), by its method set. *)
Record Action : Type := {
  Method : Eff string;
  URL : string -> Eff string;
  IsUpload : Eff bool;
  Body : Eff (bytes * option error);
  UploadForm : Eff (UploadFormT * option error);
  Decode : bytes -> Eff (option error)
}.

(** type HTTPClient interface (package wx): the transport. *)
Record HTTPClient : Type := {
  client_Do :
    Ctx -> string -> string -> bytes -> list HTTPOption ->
    Eff (bytes * option error);
  client_Upload :
    Ctx -> string -> UploadFormT -> list HTTPOption ->
    Eff (bytes * option error)
}.

(** One record per call made by the code of this package, with the arguments
    passed and the values returned. *)
Inductive Event : Type :=
| EIsUpload (ret : bool)
| EUploadForm (form : UploadFormT) (err : option error)
| EBody (body : bytes) (err : option error)
| EMethod (ret : string)
| EURL (accessToken : string) (ret : string)
| EClientDo (ctx : Ctx) (method url : string) (body : bytes)
    (options : list HTTPOption) (resp : bytes) (err : option error)
| EClientUpload (ctx : Ctx) (url : string) (form : UploadFormT)
    (options : list HTTPOption) (resp : bytes) (err : option error)
| EParseBytes (resp : bytes)
| EDecode (resp : bytes) (err : option error)
| EUnmarshal (resp : bytes) (err : option error).

(** A computation of this package: from a store to a value, the store
    after it, and the calls made, oldest first. *)
Definition M (A : Type) : Type := Store -> A * Store * list Event.

Definition ret {A : Type} (a : A) : M A := fun s => (a, s, []).

Definition bind {A B : Type} (m : M A) (f : A -> M B) : M B :=
  fun s =>
    let '(a, s1, t1) := m s in
    let '(b, s2, t2) := f a s1 in
    (b, s2, t1 ++ t2).

(** Calling a closure: run it on the store and record the call. *)
Definition call {A : Type} (ev : A -> Event) (f : Eff A) : M A :=
  fun s => let '(a, s1) := f s in (a, s1, [ev a]).

(** Calling a pure library function: only the record. *)
Definition emit (ev : Event) : M unit := fun s => (tt, s, [ev]).

Definition value {A : Type} (r : A * Store * list Event) : A := fst (fst r).

Definition store_after {A : Type} (r : A * Store * list Event) : Store :=
  snd (fst r).

Definition trace {A : Type} (r : A * Store * list Event) : list Event := snd r.

Notation "x <- m ;; k" := (bind m (fun x => k))
  (at level 100, m at next level, right associativity).

Notation "' p <- m ;; k" := (bind m (fun x => let 'p := x in k))
  (at level 100, p pattern, m at next level, right associativity).

(** What the trace says of the calls made. *)
Definition calls (p : Event -> bool) (t : list Event) : nat :=
  List.length (filter p t).

Definition is_IsUpload (e : Event) : bool :=
  match e with EIsUpload _ => true | _ => false end.

Definition is_Body (e : Event) : bool :=
  match e with EBody _ _ => true | _ => false end.

Definition is_UploadForm (e : Event) : bool :=
  match e with EUploadForm _ _ => true | _ => false end.

Definition is_transport (e : Event) : bool :=
  match e with
  | EClientDo _ _ _ _ _ _ _ | EClientUpload _ _ _ _ _ _ => true
  | _ => false
  end.

Definition is_ParseBytes (e : Event) : bool :=
  match e with EParseBytes _ => true | _ => false end.

Definition is_Decode (e : Event) : bool :=
  match e with EDecode _ _ => true | _ => false end.

Definition is_Unmarshal (e : Event) : bool :=
  match e with EUnmarshal _ _ => true | _ => false end.

(** The response and error the transport returned, when it was called. *)
Definition transport_result (e : Event) : option (bytes * option error) :=
  match e with
  | EClientDo _ _ _ _ _ resp err | EClientUpload _ _ _ _ resp err =>
      Some (resp, err)
  | _ => None
  end.

Fixpoint transport_of (t : list Event) : option (bytes * option error) :=
  match t with
  | [] => None
  | e :: t' =>
      match transport_result e with
      | Some r => Some r
      | None => transport_of t'
      end
  end.

(** *** The client *)

(** type Corp struct. *)
Record Corp : Type := {
  corpid : string;
  token : string;
  aeskey : string;
  nonce : Eff string;
  client : HTTPClient
}.

(** func (corp *Corp) CorpID() string *)
Definition CorpID (corp : Corp) : string := corpid corp.

(** The error of a response whose [errcode] is [code]:
    [fmt.Errorf("%d|%s", code, r.Get("errmsg").String())]. *)
Definition envelope_error (r : Result) (code : Z) : error :=
  fmt_Errorf (Sprintf_code_msg code (gjson_String (gjson_Get r "errmsg"))).

(** func (corp *Corp) AccessToken(ctx, secret, options...): a pointer to
    an AccessToken and an error *)
Definition AccessToken (corp : Corp) (ctx : Ctx) (secret : string)
    (options : list HTTPOption) : M (option AccessTokenT * option error) :=
  let url :=
    (urls_CorpCgiBinAccessToken ++ "?corpid=" ++ corpid corp
       ++ "&corpsecret=" ++ secret)%string in
  '(resp, err) <-
    call (fun r => EClientDo ctx MethodGet url [] options (fst r) (snd r))
         (client_Do (client corp) ctx MethodGet url [] options) ;;
  match err with
  | Some e => ret (None, Some e)
  | None =>
      _ <- emit (EParseBytes resp) ;;
      let r := gjson_ParseBytes resp in
      let code := gjson_Int (gjson_Get r "errcode") in
      if negb (code =? 0)%Z then ret (None, Some (envelope_error r code))
      else
        '(token, err) <-
          call (fun r => EUnmarshal resp (snd r))
               (fun s => (json_Unmarshal resp new_AccessToken, s)) ;;
        match err with
        | Some e => ret (None, Some e)
        | None => ret (Some token, None)
        end
  end.

(** The end of [Do], from the check of the transport's error on (lines
    91 to 101): the envelope is read, and the action decodes the response
    only when its [errcode] is zero. *)
Definition Do_response (action : Action) (resp : bytes) (err : option error)
    : M (option error) :=
  match err with
  | Some e => ret (Some e)
  | None =>
      _ <- emit (EParseBytes resp) ;;
      let r := gjson_ParseBytes resp in
      let code := gjson_Int (gjson_Get r "errcode") in
      if negb (code =? 0)%Z then ret (Some (envelope_error r code))
      else call (EDecode resp) (Decode action resp)
  end.

(** func (corp *Corp) Do(ctx, accessToken, action, options...) error *)
Definition Do (corp : Corp) (ctx : Ctx) (accessToken : string)
    (action : Action) (options : list HTTPOption) : M (option error) :=
  upload <- call EIsUpload (IsUpload action) ;;
  if (upload : bool) then
    '(form, ferr) <- call (fun r => EUploadForm (fst r) (snd r))
                          (UploadForm action) ;;
    match ferr with
    | Some e => ret (Some e)
    | None =>
        url <- call (EURL accessToken) (URL action accessToken) ;;
        '(resp, err) <-
          call (fun r => EClientUpload ctx url form options (fst r) (snd r))
               (client_Upload (client corp) ctx url form options) ;;
        Do_response action resp err
    end
  else
    '(body, berr) <- call (fun r => EBody (fst r) (snd r)) (Body action) ;;
    match berr with
    | Some e => ret (Some e)
    | None =>
        method <- call EMethod (Method action) ;;
        url <- call (EURL accessToken) (URL action accessToken) ;;
        '(resp, err) <-
          call (fun r => EClientDo ctx method url body options (fst r) (snd r))
               (client_Do (client corp) ctx method url body options) ;;
        match err with
        | Some e => ret (Some e)
        | None => Do_response action resp err
        end
    end.

(** *** Construction *)

(** [wx.Nonce(n)], [wx.NewDefaultClient()] and [wx.NewHTTPClient(c)]. *)
Variable wx_Nonce : nat -> Eff string.
Variable wx_NewDefaultClient : HTTPClient.
Variable wx_NewHTTPClient : HttpClientT -> HTTPClient.

(** type CorpOption func(corp *Corp): the struct after the call. *)
Definition CorpOption : Type := Corp -> Corp.

(** func WithServerConfig(token, aeskey string) CorpOption *)
Definition WithServerConfig (token aeskey : string) : CorpOption :=
  fun corp =>
    {| corpid := corpid corp; token := token; aeskey := aeskey;
       nonce := nonce corp; client := client corp |}.

(** func WithNonce(f func() string) CorpOption *)
Definition WithNonce (f : Eff string) : CorpOption :=
  fun corp =>
    {| corpid := corpid corp; token := token corp; aeskey := aeskey corp;
       nonce := f; client := client corp |}.

(** func WithClient(c *http.Client) CorpOption *)
Definition WithClient (c : HttpClientT) : CorpOption :=
  fun corp =>
    {| corpid := corpid corp; token := token corp; aeskey := aeskey corp;
       nonce := nonce corp; client := wx_NewHTTPClient c |}.

(** func WithMockClient(c wx.HTTPClient) CorpOption *)
Definition WithMockClient (c : HTTPClient) : CorpOption :=
  fun corp =>
    {| corpid := corpid corp; token := token corp; aeskey := aeskey corp;
       nonce := nonce corp; client := c |}.

(** The struct literal [New] starts from: the fields it does not name hold
    the empty string. *)
Definition New_default (corpid : string) : Corp :=
  {| corpid := corpid; token := ""; aeskey := "";
     nonce := wx_Nonce 16; client := wx_NewDefaultClient |}.

(** The loop [for _, f := range options { f(corp) }]. *)
Fixpoint apply_options (options : list CorpOption) (corp : Corp) : Corp :=
  match options with
  | [] => corp
  | f :: rest => apply_options rest (f corp)
  end.

(** func New(corpid string, options ...CorpOption) *Corp *)
Definition New (corpid : string) (options : list CorpOption) : Corp :=
  apply_options options (New_default corpid).

(** *** How a dispatch can end *)

(** The ways [Do] returns, told apart by where the returned value comes
    from in the trace. *)
Inductive Outcome : Type :=
| EncodingError
| TransportError
| EnvelopeError
| DecodeError
| Nil.

Definition returns (r : option error * Store * list Event) (o : Outcome)
    : Prop :=
  match o with
  | EncodingError =>
      exists e, value r = Some e
        /\ ((exists body, In (EBody body (Some e)) (trace r))
            \/ (exists form, In (EUploadForm form (Some e)) (trace r)))
  | TransportError =>
      exists resp e, value r = Some e
        /\ transport_of (trace r) = Some (resp, Some e)
  | EnvelopeError =>
      exists resp, In (EParseBytes resp) (trace r)
        /\ gjson_Int (gjson_Get (gjson_ParseBytes resp) "errcode") <> 0%Z
        /\ value r
           = Some (envelope_error (gjson_ParseBytes resp)
                     (gjson_Int (gjson_Get (gjson_ParseBytes resp) "errcode")))
  | DecodeError =>
      exists resp e, value r = Some e /\ In (EDecode resp (Some e)) (trace r)
  | Nil => value r = None
  end.

(** Exactly one of the outcomes [os] describes the run [r]. *)
Definition returns_exactly_one_of (os : list Outcome)
    (r : option error * Store * list Event) : Prop :=
  exists o, In o os /\ returns r o
    /\ forall o', In o' os -> returns r o' -> o' = o.

(** The four outcomes the guarantee of the dispatcher lists, and the five
    the code has. *)
Definition listed_outcomes : list Outcome :=
  [TransportError; EnvelopeError; DecodeError; Nil].

Definition all_outcomes : list Outcome :=
  EncodingError :: listed_outcomes.

(** A closure leaves the part [dest] of the store as it found it. *)
Definition preserves {A D : Type} (dest : Store -> D) (f : Eff A) : Prop :=
  forall s, dest (snd (f s)) = dest s.

(** [Decode] is the only step that writes to the destination [dest]: no
    other method of the action, and no call of the transport, changes it. *)
Definition writes_only_in_Decode {D : Type} (dest : Store -> D)
    (corp : Corp) (action : Action) : Prop :=
  preserves dest (IsUpload action)
  /\ preserves dest (Body action)
  /\ preserves dest (UploadForm action)
  /\ preserves dest (Method action)
  /\ (forall t, preserves dest (URL action t))
  /\ (forall ctx m u b o, preserves dest (client_Do (client corp) ctx m u b o))
  /\ (forall ctx u f o, preserves dest (client_Upload (client corp) ctx u f o)).

(** The transport call recorded by [e], if it is one, was answered by the
    client [c]: called with the recorded arguments on some store, [c]
    returns the recorded response and error. *)
Definition answered_by (c : HTTPClient) (e : Event) : Prop :=
  match e with
  | EClientDo ctx method url body options resp err =>
      exists s, fst (client_Do c ctx method url body options s) = (resp, err)
  | EClientUpload ctx url form options resp err =>
      exists s, fst (client_Upload c ctx url form options s) = (resp, err)
  | _ => True
  end.

Arguments Sprintf_code_msg : simpl never.

(** *** Running the code symbolically *)

(** Unfolds a dispatch and splits on every call result and every test it
    meets, so that each remaining goal is one path through the code. *)
Ltac split_paths :=
  simpl in *;
  repeat (match goal with
          | |- context [match ?x with _ => _ end] =>
              lazymatch x with
              | context [match _ with _ => _ end] => fail
              | _ => destruct x eqn:?
              end
          | H : context [match ?x with _ => _ end] |- _ =>
              lazymatch x with
              | context [match _ with _ => _ end] => fail
              | _ => destruct x eqn:?
              end
          end; simpl in *).

Ltac run_paths :=
  unfold Do, Do_response, envelope_error, bind, call, emit, ret,
    value, store_after, trace in *;
  split_paths.

Ltac run_token_paths :=
  unfold AccessToken, envelope_error, bind, call, emit, ret,
    value, store_after, trace in *;
  split_paths.

(** C4: on every dispatch [IsUpload] is called once, and its answer alone
    selects the producer: [UploadForm] is called once and [Body] never when
    it answers true, [Body] once and [UploadForm] never when it answers
    false; so exactly one of the two is called. *)
Theorem Do_selects_by_IsUpload :
  forall corp ctx accessToken action options s,
    let r := Do corp ctx accessToken action options s in
    let upload := fst (IsUpload action s) in
    calls is_IsUpload (trace r) = 1
    /\ calls is_UploadForm (trace r) = (if upload then 1 else 0)
    /\ calls is_Body (trace r) = (if upload then 0 else 1)
    /\ calls is_Body (trace r) + calls is_UploadForm (trace r) = 1.
Proof.
  intros corp ctx accessToken action options s r upload.
  subst r upload. run_paths.
  all: repeat split; reflexivity.
Qed.

(** C5: when the producer selected by [IsUpload] returns a non-nil error,
    [Do] returns that error at once: the store is the one the producer
    left, and the transport, the envelope parser and [Decode] were not
    called. *)
Theorem Do_encoding_error :
  forall corp ctx accessToken action options s upload s1 e s2,
    IsUpload action s = (upload, s1) ->
    (if upload
     then exists form, UploadForm action s1 = ((form, Some e), s2)
     else exists body, Body action s1 = ((body, Some e), s2)) ->
    let r := Do corp ctx accessToken action options s in
    value r = Some e
    /\ store_after r = s2
    /\ calls is_transport (trace r) = 0
    /\ calls is_ParseBytes (trace r) = 0
    /\ calls is_Decode (trace r) = 0
    /\ List.length (trace r) = 2.
Proof.
  intros corp ctx accessToken action options s upload s1 e s2 Hup Hprod r.
  subst r. unfold Do, bind, call, value, store_after, trace.
  rewrite Hup. destruct upload.
  - destruct Hprod as [form Hform]. rewrite Hform. simpl.
    repeat split; reflexivity.
  - destruct Hprod as [body Hbody]. rewrite Hbody. simpl.
    repeat split; reflexivity.
Qed.

(** C6: when the transport returns a non-nil error, [Do] returns that very
    error, and neither the envelope parser nor [Decode] is called. *)
Theorem Do_transport_error :
  forall corp ctx accessToken action options s resp e,
    let r := Do corp ctx accessToken action options s in
    transport_of (trace r) = Some (resp, Some e) ->
    value r = Some e
    /\ calls is_ParseBytes (trace r) = 0
    /\ calls is_Decode (trace r) = 0.
Proof.
  intros corp ctx accessToken action options s resp e r.
  subst r. run_paths.
  all: intros Htr; try discriminate Htr.
  all: injection Htr as <- <-; repeat split; reflexivity.
Qed.

(** C1: when the transport answered with [resp] and no error, and the
    [errcode] of [resp] converts to a non-zero integer, [Do] returns a non-nil
    error whose text is the code in decimal, a bar, and the [errmsg] of
    [resp]; [Decode] is not called. *)
Theorem Do_envelope_error :
  forall corp ctx accessToken action options s resp,
    let r := Do corp ctx accessToken action options s in
    let parsed := gjson_ParseBytes resp in
    let code := gjson_Int (gjson_Get parsed "errcode") in
    transport_of (trace r) = Some (resp, None) ->
    code <> 0%Z ->
    exists e,
      value r = Some e
      /\ Error e
         = (fmt_d code ++ "|" ++ gjson_String (gjson_Get parsed "errmsg"))%string
      /\ calls is_Decode (trace r) = 0.
Proof.
  intros corp ctx accessToken action options s resp r parsed code.
  subst r parsed code. run_paths.
  all: intros Htr Hcode; try discriminate Htr.
  all: injection Htr as <-.
  all: try (eexists; split;
            [ reflexivity | split; [ apply Error_fmt_Errorf | reflexivity ] ]).
  all: exfalso; apply Hcode; apply Z.eqb_eq;
    match goal with H : negb _ = false |- _ =>
      apply negb_false_iff in H; exact H end.
Qed.

(** C2: when the transport answered with [resp] and no error, and the
    [errcode] of [resp] is absent or converts to zero, [Decode] is called
    exactly once, on [resp], and [Do] returns what that call returned, in
    the store that call left; an absent field and a zero field take the same
    path. *)
Theorem Do_decodes_on_success :
  forall corp ctx accessToken action options s resp,
    let r := Do corp ctx accessToken action options s in
    let field := gjson_Get (gjson_ParseBytes resp) "errcode" in
    transport_of (trace r) = Some (resp, None) ->
    gjson_Exists field = false \/ gjson_Int field = 0%Z ->
    filter is_Decode (trace r) = [EDecode resp (value r)]
    /\ calls is_Decode (trace r) = 1
    /\ exists s1, Decode action resp s1 = (value r, store_after r).
Proof.
  intros corp ctx accessToken action options s resp r field.
  subst r field. intros Htr Hzero.
  assert (Hcode : gjson_Int (gjson_Get (gjson_ParseBytes resp) "errcode") = 0%Z).
  { destruct Hzero as [Habsent | Hz];
      [ apply gjson_Int_missing; exact Habsent | exact Hz ]. }
  clear Hzero. revert Htr. run_paths.
  all: intros Htr; try discriminate Htr.
  all: injection Htr as <-.
  all: try (rewrite Hcode in *; discriminate).
  all: repeat split; try reflexivity; eexists; eassumption.
Qed.

Lemma preserves_eq :
  forall (A D : Type) (dest : Store -> D) (f : Eff A) s a s',
    preserves dest f -> f s = (a, s') -> dest s' = dest s.
Proof.
  intros A D dest f s a s' Hp Heq. specialize (Hp s).
  rewrite Heq in Hp. exact Hp.
Qed.

(** Refutes a hypothesis of the form [returns r o] that the trace of the
    path at hand contradicts. *)
Ltac refute_outcome :=
  repeat match goal with
         | H : exists _, _ |- _ => destruct H
         | H : _ /\ _ |- _ => destruct H
         | H : _ \/ _ |- _ => destruct H
         | H : False |- _ => contradiction
         | H : negb (_ =? _)%Z = false |- _ =>
             apply negb_false_iff in H; apply Z.eqb_eq in H
         | H : EParseBytes _ = EParseBytes _ |- _ => injection H as H; subst
         end;
  try discriminate; try congruence.

Ltac unique_outcome :=
  let o' := fresh "o'" in
  let Ho' := fresh "Ho'" in
  intros o' _ Ho'; destruct o'; simpl in Ho'; try reflexivity;
  exfalso; refute_outcome.

Lemma Do_returns_one_outcome :
  forall corp ctx accessToken action options s,
    returns_exactly_one_of all_outcomes
      (Do corp ctx accessToken action options s).
Proof using Type.
  intros corp ctx accessToken action options s.
  unfold returns_exactly_one_of, all_outcomes, listed_outcomes.
  run_paths.
  (* upload, form error *)
  - exists EncodingError. split; [ simpl; auto 10 | split ].
    + simpl. eexists. split; [ reflexivity | right; eexists; eauto ].
    + unique_outcome.
  (* upload, transport error *)
  - exists TransportError. split; [ simpl; auto 10 | split ].
    + simpl. do 2 eexists. split; reflexivity.
    + unique_outcome.
  (* upload, envelope error *)
  - exists EnvelopeError. split; [ simpl; auto 10 | split ].
    + simpl. eexists. split; [ eauto 10 | split; [ | reflexivity ] ].
      intros Hz. rewrite Hz in *. discriminate.
    + unique_outcome.
  (* upload, decoded *)
  - destruct o1 as [e | ].
    + exists DecodeError. split; [ simpl; auto 10 | split ].
      * simpl. do 2 eexists. split; [ reflexivity | eauto 10 ].
      * unique_outcome.
    + exists Nil. split; [ simpl; auto 10 | split ].
      * reflexivity.
      * unique_outcome.
  (* body error *)
  - exists EncodingError. split; [ simpl; auto 10 | split ].
    + simpl. eexists. split; [ reflexivity | left; eexists; eauto ].
    + unique_outcome.
  (* transport error *)
  - exists TransportError. split; [ simpl; auto 10 | split ].
    + simpl. do 2 eexists. split; reflexivity.
    + unique_outcome.
  (* envelope error *)
  - exists EnvelopeError. split; [ simpl; auto 10 | split ].
    + simpl. eexists. split; [ eauto 10 | split; [ | reflexivity ] ].
      intros Hz. rewrite Hz in *. discriminate.
    + unique_outcome.
  (* decoded *)
  - destruct o1 as [e | ].
    + exists DecodeError. split; [ simpl; auto 10 | split ].
      * simpl. do 2 eexists. split; [ reflexivity | eauto 10 ].
      * unique_outcome.
    + exists Nil. split; [ simpl; auto 10 | split ].
      * reflexivity.
      * unique_outcome.
Qed.

(** Chains the equations of a path into the fact that [dest] did not
    change along it. *)
Ltac frame_path dest :=
  repeat match goal with
         | Heq : ?f ?s0 = (_, ?s1) |- _ =>
             let Hd := fresh "Hd" in
             assert (Hd : dest s1 = dest s0)
               by (eapply preserves_eq; [ | exact Heq ]; auto);
             clear Heq
         end;
  congruence.

(** C3, as the code has it: every call of [Do] ends in exactly one of an
    encoding error, a transport error, an envelope error, a decode error or
    nil; and when [Decode] is the only step that writes to a destination,
    a call that returns a non-nil error other than a decode error has not
    called [Decode] and leaves the destination as it was. *)
Theorem Do_outcome_and_frame :
  forall (D : Type) (dest : Store -> D) corp ctx accessToken action options s,
    writes_only_in_Decode dest corp action ->
    let r := Do corp ctx accessToken action options s in
    returns_exactly_one_of all_outcomes r
    /\ (value r <> None -> ~ returns r DecodeError ->
        calls is_Decode (trace r) = 0 /\ dest (store_after r) = dest s).
Proof.
  intros D dest corp ctx accessToken action options s Hw r.
  split; [ apply Do_returns_one_outcome | ].
  destruct Hw as (HIsUpload & HBody & HUploadForm & HMethod & HURL & HDo & HUp).
  subst r. unfold returns. run_paths.
  all: intros Hnil Hdec.
  all: try (split; [ reflexivity | frame_path dest ]).
  all: exfalso; destruct o1 as [e | ];
    [ apply Hdec; do 2 eexists; split; [ reflexivity | simpl; eauto 10 ]
    | apply Hnil; reflexivity ].
Qed.

(** C9: [AccessToken] ends in one of four ways, none with both a token and
    an error: the transport's error with no token; an error reading code,
    bar, message with no token and no unmarshalling, when [errcode] is not
    zero; the error of [json.Unmarshal] with no token; or a token and no
    error. *)
Theorem AccessToken_outcomes :
  forall corp ctx secret options s,
    let r := AccessToken corp ctx secret options s in
    let code resp := gjson_Int (gjson_Get (gjson_ParseBytes resp) "errcode") in
    let msg resp := gjson_String (gjson_Get (gjson_ParseBytes resp) "errmsg") in
    ((exists resp e,
         transport_of (trace r) = Some (resp, Some e)
         /\ value r = (None, Some e)
         /\ calls is_ParseBytes (trace r) = 0
         /\ calls is_Unmarshal (trace r) = 0)
     \/ (exists resp e,
         transport_of (trace r) = Some (resp, None)
         /\ code resp <> 0%Z
         /\ value r = (None, Some e)
         /\ Error e = (fmt_d (code resp) ++ "|" ++ msg resp)%string
         /\ calls is_Unmarshal (trace r) = 0)
     \/ (exists resp e,
         transport_of (trace r) = Some (resp, None)
         /\ code resp = 0%Z
         /\ snd (json_Unmarshal resp new_AccessToken) = Some e
         /\ value r = (None, Some e))
     \/ (exists resp,
         transport_of (trace r) = Some (resp, None)
         /\ code resp = 0%Z
         /\ snd (json_Unmarshal resp new_AccessToken) = None
         /\ value r = (Some (fst (json_Unmarshal resp new_AccessToken)), None)))
    /\ ~ (fst (value r) <> None /\ snd (value r) <> None).
Proof.
  intros corp ctx secret options s r code msg. subst r code msg.
  run_token_paths.
  - split; [ left | intros [H _]; apply H; reflexivity ].
    do 2 eexists. repeat split; reflexivity.
  - split; [ right; left | intros [H _]; apply H; reflexivity ].
    do 2 eexists. split; [ reflexivity | ].
    split; [ intros Hz; rewrite Hz in *; discriminate | ].
    split; [ reflexivity | ].
    split; [ apply Error_fmt_Errorf | reflexivity ].
  - split; [ right; right; left | intros [H _]; apply H; reflexivity ].
    apply negb_false_iff in Heqb0. apply Z.eqb_eq in Heqb0.
    exists b, e. rewrite Heqp1. auto.
  - split; [ right; right; right | intros [_ H]; apply H; reflexivity ].
    apply negb_false_iff in Heqb0. apply Z.eqb_eq in Heqb0.
    exists b. rewrite Heqp1. auto.
Qed.

Lemma apply_options_app :
  forall (options : list CorpOption) f corp,
    apply_options (options ++ [f]) corp = f (apply_options options corp).
Proof.
  induction options as [ | g options IH ]; intros f corp; simpl.
  - reflexivity.
  - apply IH.
Qed.

Lemma Do_through_client :
  forall corp ctx accessToken action options s,
    Forall (answered_by (client corp))
      (trace (Do corp ctx accessToken action options s)).
Proof.
  intros corp ctx accessToken action options s. run_paths.
  all: repeat constructor.
  all: eexists; match goal with H : _ = _ |- _ => rewrite H end; reflexivity.
Qed.

Lemma AccessToken_through_client :
  forall corp ctx secret options s,
    Forall (answered_by (client corp))
      (trace (AccessToken corp ctx secret options s)).
Proof.
  intros corp ctx secret options s.
  unfold AccessToken, bind, call, emit, ret, trace.
  destruct (client_Do (client corp) ctx MethodGet _ [] options s)
    as [[resp err] s1] eqn:Hdo.
  assert (Hans : answered_by (client corp)
            (EClientDo ctx MethodGet
               (urls_CorpCgiBinAccessToken ++ "?corpid=" ++ corpid corp
                  ++ "&corpsecret=" ++ secret)%string
               [] options resp err)).
  { exists s. rewrite Hdo. reflexivity. }
  destruct err as [e | ]; simpl.
  - repeat constructor. exact Hans.
  - destruct (negb _); simpl.
    + repeat constructor. exact Hans.
    + destruct (json_Unmarshal resp new_AccessToken) as [tok [e | ]]; simpl;
        repeat constructor; exact Hans.
Qed.

(** C10: [New] starts from the given corpid, the default client and the
    nonce generator [wx.Nonce(16)] (of 16 characters when [wx.Nonce(16)]
    returns that many), and runs the options one after the other in the
    order given, each on the result of those before it. After
    [New(id, WithMockClient(c))] the client is [c]: every transport call of
    [Do] and of [AccessToken] is answered by [c], and both behave as on any
    [Corp] with that corpid whose client is [c]. *)
Theorem New_applies_options_in_order :
  forall (id : string) (options : list CorpOption),
    New id [] = {| corpid := id; token := ""; aeskey := "";
                   nonce := wx_Nonce 16; client := wx_NewDefaultClient |}
    /\ ((forall s, String.length (fst (wx_Nonce 16 s)) = 16) ->
        forall s, String.length (fst (nonce (New id []) s)) = 16)
    /\ (forall f, New id (options ++ [f]) = f (New id options))
    /\ (forall c, client (New id (options ++ [WithMockClient c])) = c)
    /\ (forall c,
          New id [WithMockClient c]
          = {| corpid := id; token := ""; aeskey := "";
               nonce := wx_Nonce 16; client := c |})
    /\ (forall c ctx accessToken action secret opts s,
          let corp := New id [WithMockClient c] in
          Forall (answered_by c) (trace (Do corp ctx accessToken action opts s))
          /\ Forall (answered_by c) (trace (AccessToken corp ctx secret opts s))
          /\ forall corp',
               client corp' = c -> corpid corp' = id ->
               Do corp ctx accessToken action opts s
               = Do corp' ctx accessToken action opts s
               /\ AccessToken corp ctx secret opts s
                  = AccessToken corp' ctx secret opts s).
Proof.
  intros id options. split; [ reflexivity | ].
  split; [ intros Hlen s; apply Hlen | ].
  split; [ intros f; apply apply_options_app | ].
  split; [ intros c; unfold New; rewrite apply_options_app; reflexivity | ].
  split; [ reflexivity | ].
  intros c ctx accessToken action secret opts s corp.
  split; [ apply (Do_through_client corp) | ].
  split; [ apply (AccessToken_through_client corp) | ].
  intros corp' Hc Hid. subst corp.
  unfold Do, AccessToken. simpl. rewrite Hc, Hid. split; reflexivity.
Qed.

(** *** The pipeline of a dispatch *)

(** The place of a call in the text of [Do]: the test of [IsUpload], the
    producer, the method, the URL, the transport, the envelope, the
    decoder. *)
Definition stage (e : Event) : nat :=
  match e with
  | EIsUpload _ => 0
  | EUploadForm _ _ | EBody _ _ => 1
  | EMethod _ => 2
  | EURL _ _ => 3
  | EClientDo _ _ _ _ _ _ _ | EClientUpload _ _ _ _ _ _ => 4
  | EParseBytes _ => 5
  | EDecode _ _ | EUnmarshal _ _ => 6
  end.

Fixpoint increasing (l : list nat) : bool :=
  match l with
  | a :: (b :: _) as rest => (a <? b)%nat && increasing rest
  | _ => true
  end.

(** X1: the calls of a dispatch follow the pipeline, each stage after the
    ones before it, so no call is made twice: in particular the transport
    is called at most once (no request is sent again), and so are the
    envelope parser and [Decode]. *)
Theorem Do_pipeline_order :
  forall corp ctx accessToken action options s,
    let t := trace (Do corp ctx accessToken action options s) in
    increasing (map stage t) = true
    /\ (exists upload rest, t = EIsUpload upload :: rest)
    /\ calls is_transport t <= 1
    /\ calls is_ParseBytes t <= 1
    /\ calls is_Decode t <= 1.
Proof.
  intros corp ctx accessToken action options s t. subst t. run_paths.
  all: repeat split; try reflexivity; try (do 2 eexists; reflexivity);
    auto with arith.
Qed.

(** X2: the transport is asked for what the action produced and nothing
    else: a call of [client.Do] carries the context and options given to
    [Do], the body [Body] returned, the method [Method] returned and the URL
    [URL(accessToken)] returned, on an action that is not an upload; a call
    of [client.Upload] carries the form [UploadForm] returned and that URL,
    on an upload. *)
Theorem Do_sends_what_action_produced :
  forall corp ctx accessToken action options s,
    let t := trace (Do corp ctx accessToken action options s) in
    (forall ctx' method url body options' resp err,
        In (EClientDo ctx' method url body options' resp err) t ->
        ctx' = ctx /\ options' = options
        /\ In (EIsUpload false) t
        /\ In (EBody body None) t
        /\ In (EMethod method) t
        /\ In (EURL accessToken url) t)
    /\ (forall ctx' url form options' resp err,
          In (EClientUpload ctx' url form options' resp err) t ->
          ctx' = ctx /\ options' = options
          /\ In (EIsUpload true) t
          /\ In (EUploadForm form None) t
          /\ In (EURL accessToken url) t).
Proof.
  intros corp ctx accessToken action options s t. subst t. run_paths.
  all: split; intros; 
    repeat match goal with
           | H : _ \/ _ |- _ => destruct H
           | H : False |- _ => contradiction
           | H : @eq Event _ _ |- _ => first [ discriminate H | injection H as ; subst ]
           end;
    repeat split; auto 10.
Qed.

(** X3: [Do] returns nil only at the end of the whole pipeline: the
    transport answered without error, the [errcode] of the answer is zero,
    and the last call made is [Decode] on that answer, which returned nil. *)
Theorem Do_nil_only_after_Decode :
  forall corp ctx accessToken action options s,
    let r := Do corp ctx accessToken action options s in
    value r = None ->
    exists resp before,
      transport_of (trace r) = Some (resp, None)
      /\ gjson_Int (gjson_Get (gjson_ParseBytes resp) "errcode") = 0%Z
      /\ trace r = before ++ [EDecode resp None]
      /\ calls is_Decode before = 0.
Proof.
  intros corp ctx accessToken action options s r. subst r. run_paths.
  all: intros Hnil; try discriminate Hnil; subst.
  all: match goal with
       | H : negb (_ =? _)%Z = false |- _ =>
           apply negb_false_iff in H; apply Z.eqb_eq in H
       end.
  - exists b0. eexists [_; _; _; _; _].
    repeat split; try assumption; reflexivity.
  - exists b1. eexists [_; _; _; _; _; _].
    repeat split; try assumption; reflexivity.
Qed.

(** X4: [AccessToken] sends exactly one request: a GET, with no body and
    with the options it was given, to the token URL followed by the corpid
    and the secret as they are; and the store changes only as that call of
    the transport changes it. *)
Theorem AccessToken_request :
  forall corp ctx secret options s,
    let r := AccessToken corp ctx secret options s in
    let url := (urls_CorpCgiBinAccessToken ++ "?corpid=" ++ corpid corp
                  ++ "&corpsecret=" ++ secret)%string in
    let sent := client_Do (client corp) ctx MethodGet url [] options s in
    (exists rest,
        trace r
        = EClientDo ctx MethodGet url [] options
            (fst (fst sent)) (snd (fst sent)) :: rest
        /\ calls is_transport rest = 0)
    /\ store_after r = snd sent.
Proof.
  intros corp ctx secret options s r url sent. subst r sent url.
  unfold AccessToken, bind, call, emit, ret, store_after, trace.
  destruct (client_Do (client corp) ctx MethodGet _ [] options s)
    as [[resp err] s1].
  destruct err as [e | ]; simpl.
  - split; [ eexists; split; reflexivity | reflexivity ].
  - destruct (negb _); simpl.
    + split; [ eexists; split; reflexivity | reflexivity ].
    + destruct (json_Unmarshal resp new_AccessToken) as [tok [e | ]]; simpl;
        (split; [ eexists; split; reflexivity | reflexivity ]).
Qed.

(** *** Options, one after the other *)

(** A call of one of the four constructors of options of the file. *)
Inductive OptionCall : Type :=
| ServerConfig (token aeskey : string)
| Nonce (f : Eff string)
| Client (c : HttpClientT)
| MockClient (c : HTTPClient).

Definition option_of (o : OptionCall) : CorpOption :=
  match o with
  | ServerConfig token aeskey => WithServerConfig token aeskey
  | Nonce f => WithNonce f
  | Client c => WithClient c
  | MockClient c => WithMockClient c
  end.

(** The part of the struct an option assigns. *)
Inductive Part : Type := ServerConfigPart | NoncePart | ClientPart.

Definition part_of (o : OptionCall) : Part :=
  match o with
  | ServerConfig _ _ => ServerConfigPart
  | Nonce _ => NoncePart
  | Client _ | MockClient _ => ClientPart
  end.

(** The token and the key the calls leave, from those held before: the
    ones of the last [WithServerConfig]. *)
Fixpoint server_config (given : list OptionCall) (cur : string * string)
    : string * string :=
  match given with
  | [] => cur
  | ServerConfig token aeskey :: rest => server_config rest (token, aeskey)
  | _ :: rest => server_config rest cur
  end.

(** *** Events of the platform *)

(** [event.SignWithSHA1(token, items...)], [event.Decrypt(id, key, text)]
    and [wx.ParseXML2Map(b)], of packages that are not in the sources; a
    [wx.WXML] is a map, [None] the nil map. *)
Variable event_SignWithSHA1 : string -> list string -> string.
Variable event_Decrypt : string -> string -> string -> bytes * option error.
Variable WXML : Type.
Variable wx_ParseXML2Map : bytes -> option WXML * option error.

(** func (corp *Corp) VerifyEventSign(signature string, items ...string) bool *)
Definition VerifyEventSign (corp : Corp) (signature : string)
    (items : list string) : bool :=
  let signStr := event_SignWithSHA1 (token corp) items in
  (signStr =? signature)%string.

(** func (corp *Corp) DecryptEventMessage(encrypt string): a map and an
    error *)
Definition DecryptEventMessage (corp : Corp) (encrypt : string)
    : option WXML * option error :=
  let '(b, err) := event_Decrypt (corpid corp) (aeskey corp) encrypt in
  match err with
  | Some e => (None, Some e)
  | None => wx_ParseXML2Map b
  end.

Lemma apply_options_append :
  forall (l1 l2 : list CorpOption) corp,
    apply_options (l1 ++ l2) corp = apply_options l2 (apply_options l1 corp).
Proof.
  induction l1 as [ | f l1 IH ]; intros l2 corp; simpl.
  - reflexivity.
  - apply IH.
Qed.

Lemma apply_option_calls :
  forall given corp,
    let corp' := apply_options (map option_of given) corp in
    corpid corp' = corpid corp
    /\ (token corp', aeskey corp')
       = server_config given (token corp, aeskey corp).
Proof.
  induction given as [ | o given IH ]; intros corp; simpl.
  - split; reflexivity.
  - destruct (IH (option_of o corp)) as [Hid Hcfg].
    rewrite Hid, Hcfg. destruct o; split; reflexivity.
Qed.

(** X5: no option of the file touches the corpid: whatever calls of
    [WithServerConfig], [WithNonce], [WithClient] and [WithMockClient] are
    given to [New], in whatever order, [CorpID] of the result is the corpid
    given to [New]. *)
Theorem New_keeps_corpid :
  forall id given, CorpID (New id (map option_of given)) = id.
Proof.
  intros id given. unfold CorpID, New.
  destruct (apply_option_calls given (New_default id)) as [Hid _].
  exact Hid.
Qed.

(** X6: two options next to each other that assign different parts of the
    struct can be swapped without changing what [New] builds. *)
Theorem New_options_commute :
  forall id before a b after,
    part_of a <> part_of b ->
    New id (map option_of (before ++ a :: b :: after))
    = New id (map option_of (before ++ b :: a :: after)).
Proof.
  intros id before a b after Hpart. unfold New.
  rewrite !map_app, !apply_options_append. simpl. f_equal.
  destruct a, b; try reflexivity; exfalso; apply Hpart; reflexivity.
Qed.

(** X7: of two options next to each other that assign the same part of
    the struct, the first has no effect: [New] builds what it builds without
    it. So a [WithMockClient] followed by a [WithClient] is as if it was
    not given, and the other way round. *)
Theorem New_later_option_wins :
  forall id before a b after,
    part_of a = part_of b ->
    New id (map option_of (before ++ a :: b :: after))
    = New id (map option_of (before ++ b :: after)).
Proof.
  intros id before a b after Hpart. unfold New.
  rewrite !map_app, !apply_options_append. simpl. f_equal.
  destruct a, b; try reflexivity; discriminate Hpart.
Qed.

(** X8: on a [Corp] built by [New], [VerifyEventSign] accepts a signature
    exactly when it is the SHA1 signature of the items under the token of
    the last [WithServerConfig] given, and under the empty token when none
    was given. *)
Theorem VerifyEventSign_configured :
  forall id given signature items,
    VerifyEventSign (New id (map option_of given)) signature items = true
    <-> signature
        = event_SignWithSHA1 (fst (server_config given ("", ""))) items.
Proof.
  intros id given signature items. unfold VerifyEventSign, New.
  destruct (apply_option_calls given (New_default id)) as [_ Hcfg].
  simpl in Hcfg. rewrite <- Hcfg. simpl.
  rewrite String.eqb_eq. split; intros H; symmetry; exact H.
Qed.

(** X9: on a [Corp] built by [New], [DecryptEventMessage] decrypts with the
    corpid given to [New] and the key of the last [WithServerConfig] (the
    empty key when none was given); when decryption fails it returns that
    error and no map, and otherwise what parsing the plain text returns. *)
Theorem DecryptEventMessage_configured :
  forall id given encrypt,
    let corp := New id (map option_of given) in
    let plain :=
      event_Decrypt id (snd (server_config given ("", ""))) encrypt in
    (forall e, snd plain = Some e ->
               DecryptEventMessage corp encrypt = (None, Some e))
    /\ (snd plain = None ->
        DecryptEventMessage corp encrypt = wx_ParseXML2Map (fst plain)).
Proof.
  intros id given encrypt corp plain. subst corp plain.
  unfold DecryptEventMessage, New.
  destruct (apply_option_calls given (New_default id)) as [Hid Hcfg].
  simpl in Hid, Hcfg. rewrite Hid.
  replace (aeskey (apply_options (map option_of given) (New_default id)))
    with (snd (server_config given ("", "")))
    by (rewrite <- Hcfg; reflexivity).
  destruct (event_Decrypt id _ encrypt) as [b [e | ]]; simpl; split;
    intros; congruence.
Qed.

(** *** Authorization URLs *)

(** [urls.Oauth2Authorize] and [urls.QRCodeAuthorize]; the type [AuthScope]
    (declared elsewhere in the package) and the text the verb [%s] writes
    for a value of it. *)
Variable urls_Oauth2Authorize : string.
Variable urls_QRCodeAuthorize : string.
Variable AuthScope : Type.
Variable AuthScope_text : AuthScope -> string.

(** func (corp *Corp) OAuth2URL(scope AuthScope, redirectURL, state string) string *)
Definition OAuth2URL (corp : Corp) (scope : AuthScope)
    (redirectURL state : string) : string :=
  (urls_Oauth2Authorize ++ "?appid=" ++ corpid corp
     ++ "&redirect_uri=" ++ redirectURL
     ++ "&response_type=code&scope=" ++ AuthScope_text scope
     ++ "&state=" ++ state ++ "#wechat_redirect")%string.

(** func (corp *Corp) QRCodeAuthURL(agentID, redirectURL, state string) string *)
Definition QRCodeAuthURL (corp : Corp) (agentID redirectURL state : string)
    : string :=
  (urls_QRCodeAuthorize ++ "?appid=" ++ corpid corp
     ++ "&agentid=" ++ agentID
     ++ "&redirect_uri=" ++ redirectURL
     ++ "&state=" ++ state)%string.

(** The character [c] does not occur in [s]. *)
Fixpoint free_of (c : ascii) (s : string) : bool :=
  match s with
  | EmptyString => true
  | String a rest => negb (a =? c)%char && free_of c rest
  end.

Lemma append_cancel_l :
  forall p a b : string, (p ++ a)%string = (p ++ b)%string -> a = b.
Proof.
  induction p as [ | c p IH ]; simpl; intros a b H.
  - exact H.
  - injection H as H. apply IH. exact H.
Qed.

Lemma length_append :
  forall a b : string,
    String.length (a ++ b) = String.length a + String.length b.
Proof.
  induction a as [ | c a IH ]; simpl; intros b.
  - reflexivity.
  - rewrite IH. reflexivity.
Qed.

Lemma append_cancel_r :
  forall a b d : string, (a ++ d)%string = (b ++ d)%string -> a = b.
Proof.
  induction a as [ | c a IH ]; intros [ | c' b ] d H; simpl in H.
  - reflexivity.
  - exfalso. apply (f_equal String.length) in H. simpl in H.
    rewrite length_append in H. lia.
  - exfalso. apply (f_equal String.length) in H. simpl in H.
    rewrite length_append in H. lia.
  - injection H as -> H. f_equal. apply (IH b d). exact H.
Qed.

(** Two texts free of [c], each followed by [c]: where the first [c]
    stands tells them apart. *)
Lemma split_at_first :
  forall c sep x x' r r',
    free_of c x = true -> free_of c x' = true ->
    (x ++ (String c sep ++ r))%string = (x' ++ (String c sep ++ r'))%string ->
    x = x' /\ r = r'.
Proof.
  intros c sep. induction x as [ | a x IH ]; intros [ | a' x' ] r r' Hx Hx' H;
    simpl in *.
  - injection H as H. split; [ reflexivity | ].
    apply append_cancel_l in H. exact H.
  - exfalso. injection H as Ha _. subst a'.
    rewrite Ascii.eqb_refl in Hx'. discriminate.
  - exfalso. injection H as Ha _. subst a.
    rewrite Ascii.eqb_refl in Hx. discriminate.
  - injection H as -> H.
    apply andb_true_iff in Hx. apply andb_true_iff in Hx'.
    destruct (IH x' r r' (proj2 Hx) (proj2 Hx') H) as [-> ->].
    split; reflexivity.
Qed.

(** X10: for one [Corp], the authorization URL tells its arguments apart,
    provided the redirect URL and the scope are written without [&] (as a
    URL-encoded redirect URL is): two calls that return the same URL were
    given the same redirect URL, the same scope text and the same state. *)
Theorem OAuth2URL_injective :
  forall corp scope scope' redirectURL redirectURL' state state',
    free_of "&" redirectURL = true ->
    free_of "&" redirectURL' = true ->
    free_of "&" (AuthScope_text scope) = true ->
    free_of "&" (AuthScope_text scope') = true ->
    OAuth2URL corp scope redirectURL state
    = OAuth2URL corp scope' redirectURL' state' ->
    redirectURL = redirectURL'
    /\ AuthScope_text scope = AuthScope_text scope'
    /\ state = state'.
Proof.
  intros corp scope scope' redirectURL redirectURL' state state'
    Hr Hr' Hs Hs' H.
  unfold OAuth2URL in H.
  do 4 apply append_cancel_l in H.
  apply split_at_first in H; [ | assumption | assumption ].
  destruct H as [Hredirect H].
  apply split_at_first in H; [ | assumption | assumption ].
  destruct H as [Hscope H].
  apply append_cancel_r in H.
  repeat split; assumption.
Qed.

(** X11: for one [Corp], the URL of the QR code page tells its arguments
    apart, provided the agent id and the redirect URL are written without
    [&]: two calls that return the same URL were given the same agent id, the
    same redirect URL and the same state. *)
Theorem QRCodeAuthURL_injective :
  forall corp agentID agentID' redirectURL redirectURL' state state',
    free_of "&" agentID = true ->
    free_of "&" agentID' = true ->
    free_of "&" redirectURL = true ->
    free_of "&" redirectURL' = true ->
    QRCodeAuthURL corp agentID redirectURL state
    = QRCodeAuthURL corp agentID' redirectURL' state' ->
    agentID = agentID' /\ redirectURL = redirectURL' /\ state = state'.
Proof.
  intros corp agentID agentID' redirectURL redirectURL' state state'
    Ha Ha' Hr Hr' H.
  unfold QRCodeAuthURL in H.
  do 4 apply append_cancel_l in H.
  apply (split_at_first "&" "redirect_uri=") in H;
    [ | assumption | assumption ].
  destruct H as [Hagent H].
  apply (split_at_first "&" "state=" redirectURL redirectURL' state state')
    in H; [ | assumption | assumption ].
  destruct H as [Hredirect Hstate].
  repeat split; assumption.
Qed.

End Dispatcher.

Arguments value {Store error Ctx HTTPOption UploadFormT A} r.
Arguments store_after {Store error Ctx HTTPOption UploadFormT A} r.
Arguments trace {Store error Ctx HTTPOption UploadFormT A} r.
Arguments calls {error Ctx HTTPOption UploadFormT} p t.
Arguments is_IsUpload {error Ctx HTTPOption UploadFormT} e.
Arguments is_Body {error Ctx HTTPOption UploadFormT} e.
Arguments is_UploadForm {error Ctx HTTPOption UploadFormT} e.
Arguments is_transport {error Ctx HTTPOption UploadFormT} e.
Arguments is_ParseBytes {error Ctx HTTPOption UploadFormT} e.
Arguments is_Decode {error Ctx HTTPOption UploadFormT} e.
Arguments is_Unmarshal {error Ctx HTTPOption UploadFormT} e.
Arguments transport_of {error Ctx HTTPOption UploadFormT} t.
Arguments answered_by {Store error Ctx HTTPOption UploadFormT} c e.
Arguments writes_only_in_Decode {Store error Ctx HTTPOption UploadFormT D}
  dest corp action.
Arguments corpid {Store error Ctx HTTPOption UploadFormT} c.
Arguments client {Store error Ctx HTTPOption UploadFormT} c.
Arguments nonce {Store error Ctx HTTPOption UploadFormT} c _.
Arguments WithMockClient {Store error Ctx HTTPOption UploadFormT} c _.
Arguments ServerConfig {Store error Ctx HTTPOption UploadFormT HttpClientT}
  token aeskey.
Arguments Nonce {Store error Ctx HTTPOption UploadFormT HttpClientT} f.
Arguments Client {Store error Ctx HTTPOption UploadFormT HttpClientT} c.
Arguments MockClient {Store error Ctx HTTPOption UploadFormT HttpClientT} c.
Arguments part_of {Store error Ctx HTTPOption UploadFormT HttpClientT} o.

End corp.

(** ** Package agent

    The structs and the actions of the agent endpoints, which follow
    [corp.go] in the sources. An action is built there by [wx.NewGetAction]
    around a closure that decodes the response into the caller's result;
    the closures are what is embedded here. *)

Module agent.

Import Json.

Section Package.

(** [strconv.IntSize], the number of bits of an [int]. *)
Variable IntSize : Z.

(** type AllowUser struct *)
Record AllowUser : Type := {
  AllowUser_UserID : string
}.

(** type AllowUserInfos struct *)
Record AllowUserInfos : Type := {
  AllowUserInfos_User : option (list AllowUser)
}.

(** type AllowPartys struct *)
Record AllowPartys : Type := {
  AllowPartys_PartID : option (list Z)
}.

(** type AllowTags struct *)
Record AllowTags : Type := {
  AllowTags_TagID : option (list Z)
}.

(** type ResultAgentGet struct *)
Record ResultAgentGet : Type := {
  AgentID : string;
  Name : string;
  SquareLogoURL : string;
  Description : string;
  Close : Z;
  RedirectDomain : string;
  ReportLocationFlag : Z;
  ISReportenter : Z;
  HomeURL : string;
  AllowUserInfos_of : option AllowUserInfos;
  AllowPartys_of : option AllowPartys;
  AllowTags_of : option AllowTags
}.

(** type AgentListItem struct *)
Record AgentListItem : Type := {
  AgentListItem_AgentID : string;
  AgentListItem_Name : string;
  AgentListItem_SquareLogoURL : string
}.

(** type ResultAgentList struct *)
Record ResultAgentList : Type := {
  AgentList : option (list AgentListItem)
}.

Definition zero_AllowUser : AllowUser := {| AllowUser_UserID := "" |}.

Definition zero_AllowUserInfos : AllowUserInfos :=
  {| AllowUserInfos_User := None |}.

Definition zero_AllowPartys : AllowPartys := {| AllowPartys_PartID := None |}.

Definition zero_AllowTags : AllowTags := {| AllowTags_TagID := None |}.

Definition zero_AgentListItem : AgentListItem :=
  {| AgentListItem_AgentID := ""; AgentListItem_Name := "";
     AgentListItem_SquareLogoURL := "" |}.

Definition zero_ResultAgentList : ResultAgentList := {| AgentList := None |}.

Notation "x <- m ;; k" := (match m with Some x => k | None => None end)
  (at level 100, m at next level, right associativity).

(** [json.Unmarshal] into each struct, by the tags of its fields: the
    struct [cur] after the value is decoded into it. *)
Definition decode_AllowUser (v : value) (cur : AllowUser) : option AllowUser :=
  match v with
  | Object ms =>
      userid <- string_field "userid" ms (AllowUser_UserID cur) ;;
      Some {| AllowUser_UserID := userid |}
  | Null => Some cur
  | _ => None
  end.

Definition decode_AllowUserInfos (v : value) (cur : AllowUserInfos)
    : option AllowUserInfos :=
  match v with
  | Object ms =>
      user <- slice_field "user" zero_AllowUser decode_AllowUser ms
                (AllowUserInfos_User cur) ;;
      Some {| AllowUserInfos_User := user |}
  | Null => Some cur
  | _ => None
  end.

Definition decode_AllowPartys (v : value) (cur : AllowPartys)
    : option AllowPartys :=
  match v with
  | Object ms =>
      partid <- int64_slice_field "partid" ms (AllowPartys_PartID cur) ;;
      Some {| AllowPartys_PartID := partid |}
  | Null => Some cur
  | _ => None
  end.

Definition decode_AllowTags (v : value) (cur : AllowTags) : option AllowTags :=
  match v with
  | Object ms =>
      tagid <- int64_slice_field "tagid" ms (AllowTags_TagID cur) ;;
      Some {| AllowTags_TagID := tagid |}
  | Null => Some cur
  | _ => None
  end.

Definition decode_ResultAgentGet (v : value) (cur : ResultAgentGet)
    : option ResultAgentGet :=
  match v with
  | Object ms =>
      agentid <- string_field "agentid" ms (AgentID cur) ;;
      name <- string_field "name" ms (Name cur) ;;
      logo <- string_field "square_logo_url" ms (SquareLogoURL cur) ;;
      description <- string_field "description" ms (Description cur) ;;
      close <- int_field "close" IntSize ms (Close cur) ;;
      domain <- string_field "redirect_domain" ms (RedirectDomain cur) ;;
      flag <- int_field "report_location_flag" IntSize ms
                (ReportLocationFlag cur) ;;
      reportenter <- int_field "is_reportenter" IntSize ms
                       (ISReportenter cur) ;;
      home <- string_field "home_url" ms (HomeURL cur) ;;
      users <- pointer_field "allow_userinfos" zero_AllowUserInfos
                 decode_AllowUserInfos ms (AllowUserInfos_of cur) ;;
      partys <- pointer_field "allow_partys" zero_AllowPartys
                  decode_AllowPartys ms (AllowPartys_of cur) ;;
      tags <- pointer_field "allow_tags" zero_AllowTags decode_AllowTags ms
                (AllowTags_of cur) ;;
      Some {| AgentID := agentid; Name := name; SquareLogoURL := logo;
              Description := description; Close := close;
              RedirectDomain := domain; ReportLocationFlag := flag;
              ISReportenter := reportenter; HomeURL := home;
              AllowUserInfos_of := users; AllowPartys_of := partys;
              AllowTags_of := tags |}
  | Null => Some cur
  | _ => None
  end.

Definition decode_AgentListItem (v : value) (cur : AgentListItem)
    : option AgentListItem :=
  match v with
  | Object ms =>
      agentid <- string_field "agentid" ms (AgentListItem_AgentID cur) ;;
      name <- string_field "name" ms (AgentListItem_Name cur) ;;
      logo <- string_field "square_logo_url" ms
                (AgentListItem_SquareLogoURL cur) ;;
      Some {| AgentListItem_AgentID := agentid; AgentListItem_Name := name;
              AgentListItem_SquareLogoURL := logo |}
  | Null => Some cur
  | _ => None
  end.

Definition decode_ResultAgentList (v : value) (cur : ResultAgentList)
    : option ResultAgentList :=
  match v with
  | Object ms =>
      list <- slice_field "agentlist" zero_AgentListItem decode_AgentListItem
                ms (AgentList cur) ;;
      Some {| AgentList := list |}
  | Null => Some cur
  | _ => None
  end.

(** The decoder of [AgentGet(agentID, result)]: the closure
    [json.Unmarshal(resp, result)]; the result after the call, [None] when
    the call returns an error. *)
Definition AgentGet_Decode (resp : bytes) (result : ResultAgentGet)
    : option ResultAgentGet :=
  v <- parse (string_of_bytes resp) ;;
  decode_ResultAgentGet v result.

(** The decoder of [AgentList(result)]. *)
Definition AgentList_Decode (resp : bytes) (result : ResultAgentList)
    : option ResultAgentList :=
  v <- parse (string_of_bytes resp) ;;
  decode_ResultAgentList v result.



(** X13: the agent id of the result is a string: a response whose
    [agentid] is a JSON number makes the decoder of [AgentGet] return an
    error. *)
Theorem AgentGet_Decode_numeric_agentid :
  forall resp ms n result,
    parse (string_of_bytes resp) = Some (Object ms) ->
    the "agentid" (Number n) ms ->
    AgentGet_Decode resp result = None.
Proof.
  intros resp ms n result Hparse Hid.
  unfold AgentGet_Decode. rewrite Hparse. unfold decode_ResultAgentGet.
  rewrite (string_field_number "agentid" ms _ n Hid). reflexivity.
Qed.


(** X15: one agent of the list whose [agentid] is a JSON number makes the
    decoder of [AgentList] return an error. *)
Theorem AgentList_Decode_numeric_agentid :
  forall resp ms items item n result,
    parse (string_of_bytes resp) = Some (Object ms) ->
    the "agentlist" (Array items) ms ->
    In (Object item) items ->
    the "agentid" (Number n) item ->
    AgentList_Decode resp result = None.
Proof.
  intros resp ms items item n result Hparse Hlist Hin Hid.
  unfold AgentList_Decode. rewrite Hparse. unfold decode_ResultAgentList.
  rewrite slice_field_the with (items := items) by assumption.
  rewrite elements_error with (v := Object item); [ reflexivity | exact Hin | ].
  intros c. unfold decode_AgentListItem.
  rewrite (string_field_number "agentid" item _ n Hid). reflexivity.
Qed.



End Package.

End agent.

(** ** Package oa: the menu tree

    [oa/menu_test.go] shows the structs of the menu tree, field by field,
    the builders of buttons and the actions [CreateMenu] and [GetMenu]; the
    file that declares them is not among the sources. *)

Module oa.

Import Json.

(** Modelled from the spec: the struct [MenuButton] of the missing
    [oa/menu.go], with the fields the test's literals name. [SubButton] is
    a slice: [None] is nil, [Some []] the empty non-nil slice. *)
Inductive MenuButton : Type := Build_MenuButton {
  Type' : string;
  Name : string;
  Key : string;
  URL : string;
  AppID : string;
  PagePath : string;
  MediaID : string;
  SubButton : option (list MenuButton)
}.

(** Modelled from the spec: the struct [MenuMatchRule] of the missing
    [oa/menu.go]. *)
Record MenuMatchRule : Type := {
  TagID : string;
  Sex : string;
  Country : string;
  Province : string;
  City : string;
  ClientPlatformType : string;
  Language : string
}.

(** Modelled from the spec: the struct [DefaultMenu] of the missing
    [oa/menu.go] (fields [Button] and [MenuID]). *)
Record DefaultMenu : Type := {
  DefaultMenu_Button : option (list MenuButton);
  DefaultMenu_MenuID : Z
}.

(** Modelled from the spec: the struct [ConditionalMenu] of the missing
    [oa/menu.go] (fields [Button], [MatchRule] and [MenuID]). *)
Record ConditionalMenu : Type := {
  ConditionalMenu_Button : option (list MenuButton);
  ConditionalMenu_MatchRule : option MenuMatchRule;
  ConditionalMenu_MenuID : Z
}.

(** Modelled from the spec: the struct [MenuInfo] of the missing
    [oa/menu.go] (fields [DefaultMenu] and [ConditionalMenu]). *)
Record MenuInfo : Type := {
  MenuInfo_DefaultMenu : option DefaultMenu;
  MenuInfo_ConditionalMenu : option (list ConditionalMenu)
}.

(** The zero values, as [new] allocates them. *)
Definition zero_MenuButton : MenuButton :=
  Build_MenuButton "" "" "" "" "" "" "" None.

Definition zero_MenuMatchRule : MenuMatchRule :=
  {| TagID := ""; Sex := ""; Country := ""; Province := ""; City := "";
     ClientPlatformType := ""; Language := "" |}.

Definition zero_DefaultMenu : DefaultMenu :=
  {| DefaultMenu_Button := None; DefaultMenu_MenuID := 0 |}.

Definition zero_ConditionalMenu : ConditionalMenu :=
  {| ConditionalMenu_Button := None; ConditionalMenu_MatchRule := None;
     ConditionalMenu_MenuID := 0 |}.

Definition zero_MenuInfo : MenuInfo :=
  {| MenuInfo_DefaultMenu := None; MenuInfo_ConditionalMenu := None |}.

(** The buttons under a node. *)
Definition children (b : MenuButton) : list MenuButton :=
  match SubButton b with
  | Some l => l
  | None => []
  end.

(** Modelled from the spec: the builders of the missing [oa/menu.go], by
    the kinds of button of the data model: a click button has a key, a view
    button a URL, a mini-program button an app id, a page path and a URL, a
    group only a name and its buttons. *)
Definition ClickButton (name key : string) : MenuButton :=
  Build_MenuButton "click" name key "" "" "" "" None.

Definition ViewButton (name url : string) : MenuButton :=
  Build_MenuButton "view" name "" url "" "" "" None.

Definition MPButton (name appid pagepath redirectURL : string) : MenuButton :=
  Build_MenuButton "miniprogram" name "" redirectURL appid pagepath "" None.

Definition GroupButton (name : string) (buttons : list MenuButton)
    : MenuButton :=
  Build_MenuButton "" name "" "" "" "" ""
    (match buttons with [] => None | _ :: _ => Some buttons end).

(** *** The wire form *)

(** Modelled from the spec: the JSON of a [MenuButton] in the missing
    [oa/menu.go]. The wire form is sparse: a string field that is empty is
    left out; [sub_button] is always there, an empty sequence when the node
    has no children. The keys are those of the test's payloads, and for the
    app id, the page path and the media id, which no payload of the test
    carries, those of the remote API. *)
Fixpoint encode_MenuButton (b : MenuButton) : value :=
  match b with
  | Build_MenuButton t n k u a p m sub =>
      Object
        (omitempty "type" t ++ omitempty "name" n ++ omitempty "key" k
           ++ omitempty "url" u ++ omitempty "appid" a
           ++ omitempty "pagepath" p ++ omitempty "media_id" m
           ++ [("sub_button",
                Array (match sub with
                       | Some l => map encode_MenuButton l
                       | None => []
                       end))])
  end.

(** Modelled from the spec: the JSON of a [MenuMatchRule] in the missing
    [oa/menu.go]: every field is left out when empty. *)
Definition encode_MenuMatchRule (r : MenuMatchRule) : value :=
  Object
    (omitempty "tag_id" (TagID r) ++ omitempty "sex" (Sex r)
       ++ omitempty "country" (Country r) ++ omitempty "province" (Province r)
       ++ omitempty "city" (City r)
       ++ omitempty "client_platform_type" (ClientPlatformType r)
       ++ omitempty "language" (Language r)).

(** Modelled from the spec: the body producers of [CreateMenu] and
    [CreateConditionalMenu] in the missing [oa/menu.go], as the JSON value
    that [json.Marshal] writes out. *)
Definition CreateMenu_Body (buttons : list MenuButton) : value :=
  Object [("button", Array (map encode_MenuButton buttons))].

Definition CreateConditionalMenu_Body (matchRule : MenuMatchRule)
    (buttons : list MenuButton) : value :=
  Object [("button", Array (map encode_MenuButton buttons));
          ("matchrule", encode_MenuMatchRule matchRule)].

Notation "x <- m ;; k" := (match m with Some x => k | None => None end)
  (at level 100, m at next level, right associativity).

(** Modelled from the spec: [json.Unmarshal] into a [MenuButton] of the
    missing [oa/menu.go]: the struct [cur] after the value [v] is decoded
    into it, every field in memory whether or not the value carries it. *)
Fixpoint decode_MenuButton (v : value) (cur : MenuButton) {struct v}
    : option MenuButton :=
  match v with
  | Object ms =>
      t <- string_field "type" ms (Type' cur) ;;
      n <- string_field "name" ms (Name cur) ;;
      k <- string_field "key" ms (Key cur) ;;
      u <- string_field "url" ms (URL cur) ;;
      a <- string_field "appid" ms (AppID cur) ;;
      p <- string_field "pagepath" ms (PagePath cur) ;;
      m <- string_field "media_id" ms (MediaID cur) ;;
      sub <- slice_field "sub_button" zero_MenuButton decode_MenuButton ms
               (SubButton cur) ;;
      Some (Build_MenuButton t n k u a p m sub)
  | Null => Some cur
  | _ => None
  end.

(** Modelled from the spec: [json.Unmarshal] into a [MenuMatchRule] of the
    missing [oa/menu.go]. *)
Definition decode_MenuMatchRule (v : value) (cur : MenuMatchRule)
    : option MenuMatchRule :=
  match v with
  | Object ms =>
      tag <- string_field "tag_id" ms (TagID cur) ;;
      sex <- string_field "sex" ms (Sex cur) ;;
      country <- string_field "country" ms (Country cur) ;;
      province <- string_field "province" ms (Province cur) ;;
      city <- string_field "city" ms (City cur) ;;
      platform <- string_field "client_platform_type" ms
                    (ClientPlatformType cur) ;;
      language <- string_field "language" ms (Language cur) ;;
      Some {| TagID := tag; Sex := sex; Country := country;
              Province := province; City := city;
              ClientPlatformType := platform; Language := language |}
  | Null => Some cur
  | _ => None
  end.

(** Modelled from the spec: [json.Unmarshal] into a [DefaultMenu] of the
    missing [oa/menu.go]. *)
Definition decode_DefaultMenu (v : value) (cur : DefaultMenu)
    : option DefaultMenu :=
  match v with
  | Object ms =>
      button <- slice_field "button" zero_MenuButton decode_MenuButton ms
                  (DefaultMenu_Button cur) ;;
      menuid <- int64_field "menuid" ms (DefaultMenu_MenuID cur) ;;
      Some {| DefaultMenu_Button := button; DefaultMenu_MenuID := menuid |}
  | Null => Some cur
  | _ => None
  end.

(** Modelled from the spec: [json.Unmarshal] into a [ConditionalMenu] of
    the missing [oa/menu.go]. *)
Definition decode_ConditionalMenu (v : value) (cur : ConditionalMenu)
    : option ConditionalMenu :=
  match v with
  | Object ms =>
      button <- slice_field "button" zero_MenuButton decode_MenuButton ms
                  (ConditionalMenu_Button cur) ;;
      rule <- pointer_field "matchrule" zero_MenuMatchRule
                decode_MenuMatchRule ms (ConditionalMenu_MatchRule cur) ;;
      menuid <- int64_field "menuid" ms (ConditionalMenu_MenuID cur) ;;
      Some {| ConditionalMenu_Button := button;
              ConditionalMenu_MatchRule := rule;
              ConditionalMenu_MenuID := menuid |}
  | Null => Some cur
  | _ => None
  end.

(** Modelled from the spec: [json.Unmarshal] into a [MenuInfo] of the
    missing [oa/menu.go]: the default menu under [menu], the conditional
    ones under [conditionalmenu]; either may be absent, and then leaves a
    nil field. *)
Definition decode_MenuInfo (v : value) (cur : MenuInfo) : option MenuInfo :=
  match v with
  | Object ms =>
      menu <- pointer_field "menu" zero_DefaultMenu decode_DefaultMenu ms
                (MenuInfo_DefaultMenu cur) ;;
      conditional <- slice_field "conditionalmenu" zero_ConditionalMenu
                       decode_ConditionalMenu ms
                       (MenuInfo_ConditionalMenu cur) ;;
      Some {| MenuInfo_DefaultMenu := menu;
              MenuInfo_ConditionalMenu := conditional |}
  | Null => Some cur
  | _ => None
  end.

(** Modelled from the spec: the decoder of the action [GetMenu(dest)] of
    the missing [oa/menu.go], [json.Unmarshal(resp, dest)]: the destination
    after the call, or [None] on a decoding error. *)
Definition GetMenu_Decode (resp : bytes) (dest : MenuInfo) : option MenuInfo :=
  v <- parse (string_of_bytes resp) ;;
  decode_MenuInfo v dest.

(** A button as it is in memory after a round trip: the same strings, and
    a non-nil slice of its children, themselves so. *)
Fixpoint decoded (b : MenuButton) : MenuButton :=
  match b with
  | Build_MenuButton t n k u a p m sub =>
      Build_MenuButton t n k u a p m
        (Some (match sub with
               | Some l => map decoded l
               | None => []
               end))
  end.

(** *** The round trip of a button tree *)

Lemma MenuButton_induction :
  forall P : MenuButton -> Prop,
    (forall t n k u a p m sub,
        Forall P (match sub with Some l => l | None => [] end) ->
        P (Build_MenuButton t n k u a p m sub)) ->
    forall b, P b.
Proof.
  intros P H. fix IH 1. intros [t n k u a p m sub]. apply H.
  destruct sub as [l | ]; [ | constructor ].
  induction l as [ | x l IHl ]; constructor; [ apply IH | exact IHl ].
Qed.

(** Evaluates the lookup of the field tagged [key] in the members
    [encode_MenuButton] writes. *)
Ltac field key :=
  repeat (rewrite (string_field_app key);
          first [ rewrite (string_field_omitempty_other key) by reflexivity
                | rewrite (string_field_omitempty key) ];
          cbv beta iota);
  rewrite (string_field_lacks key) by reflexivity;
  cbv beta iota.

Lemma encode_MenuButton_not_Null : forall b, encode_MenuButton b <> Null.
Proof. intros [t n k u a p m sub]. discriminate. Qed.

Lemma elements_encode_MenuButton :
  forall l,
    Forall (fun b => decode_MenuButton (encode_MenuButton b) zero_MenuButton
                     = Some (decoded b)) l ->
    elements zero_MenuButton decode_MenuButton (map encode_MenuButton l) []
    = Some (map decoded l).
Proof.
  intros l H. apply elements_map.
  apply Forall_impl with (2 := H). intros b Hb.
  split; [ apply encode_MenuButton_not_Null | exact Hb ].
Qed.

Lemma decode_encode_MenuButton :
  forall b, decode_MenuButton (encode_MenuButton b) zero_MenuButton
            = Some (decoded b).
Proof.
  induction b as [t n k u a p m sub IH] using MenuButton_induction.
  cbn [encode_MenuButton decode_MenuButton decoded zero_MenuButton
       Type' Name Key URL AppID PagePath MediaID SubButton].
  field "type". field "name". field "key". field "url". field "appid".
  field "pagepath". field "media_id".
  rewrite !slice_field_omitempty by reflexivity.
  rewrite slice_field_the
    with (items := match sub with
                   | Some l => map encode_MenuButton l
                   | None => []
                   end)
    by (exists [], []; repeat split; reflexivity).
  destruct sub as [l | ].
  - rewrite (elements_encode_MenuButton l IH). reflexivity.
  - reflexivity.
Qed.

(** The response of the Get action that carries, as its default menu,
    the buttons of the body [body] of a Create action, under the menu id
    the platform gave them. *)
Definition GetMenu_response (body : value) (menuid : Z) : value :=
  Object [("menu", Object (members_of body ++ [("menuid", Number menuid)]))].

Lemma encode_MenuButton_sub_button :
  forall b,
    the "sub_button" (Array (map encode_MenuButton (children b)))
      (members_of (encode_MenuButton b)).
Proof.
  intros [t n k u a p m sub].
  exists (omitempty "type" t ++ omitempty "name" n ++ omitempty "key" k
            ++ omitempty "url" u ++ omitempty "appid" a
            ++ omitempty "pagepath" p ++ omitempty "media_id" m), [].
  split; [ | split; [ | reflexivity ] ].
  - unfold children. simpl. repeat rewrite <- app_assoc.
    destruct sub; reflexivity.
  - repeat (rewrite lacks_app; rewrite lacks_omitempty by reflexivity; simpl).
    apply lacks_omitempty. reflexivity.
Qed.

Lemma decode_GetMenu_response :
  forall buttons menuid,
    in_int64 menuid = true ->
    decode_MenuInfo (GetMenu_response (CreateMenu_Body buttons) menuid)
      zero_MenuInfo
    = Some {| MenuInfo_DefaultMenu :=
                Some {| DefaultMenu_Button := Some (map decoded buttons);
                        DefaultMenu_MenuID := menuid |};
              MenuInfo_ConditionalMenu := None |}.
Proof.
  intros buttons menuid Hid.
  assert (Hels : elements zero_MenuButton decode_MenuButton
                   (map encode_MenuButton buttons) []
                 = Some (map decoded buttons)).
  { apply elements_encode_MenuButton. apply Forall_forall.
    intros b _. apply decode_encode_MenuButton. }
  unfold GetMenu_response, CreateMenu_Body, decode_MenuInfo,
    decode_DefaultMenu.
  cbn - [in_int64 elements decode_MenuButton encode_MenuButton].
  rewrite Hels, Hid. reflexivity.
Qed.

(** C7: a button tree written by the body producer of the Create action
    and read back by the decoder of the Get action, from any response text
    that carries it as the default menu, keeps on every node the same
    [Type], [Name], [Key], [URL], [AppID], [PagePath] and [MediaID]; and
    [SubButton] is a sequence on both sides: the member [sub_button] of
    every node on the wire, an array that is empty when the node has no
    children, and a non-nil slice in memory, empty when the node has no
    children. *)
Theorem CreateMenu_GetMenu_round_trip :
  forall (buttons : list MenuButton) (menuid : Z) (resp : bytes),
    in_int64 menuid = true ->
    parse (string_of_bytes resp)
    = Some (GetMenu_response (CreateMenu_Body buttons) menuid) ->
    GetMenu_Decode resp zero_MenuInfo
    = Some {| MenuInfo_DefaultMenu :=
                Some {| DefaultMenu_Button := Some (map decoded buttons);
                        DefaultMenu_MenuID := menuid |};
              MenuInfo_ConditionalMenu := None |}
    /\ forall b : MenuButton,
         Type' (decoded b) = Type' b
         /\ Name (decoded b) = Name b
         /\ Key (decoded b) = Key b
         /\ URL (decoded b) = URL b
         /\ AppID (decoded b) = AppID b
         /\ PagePath (decoded b) = PagePath b
         /\ MediaID (decoded b) = MediaID b
         /\ SubButton (decoded b) = Some (map decoded (children b))
         /\ the "sub_button" (Array (map encode_MenuButton (children b)))
              (members_of (encode_MenuButton b))
         /\ (children b = [] ->
             SubButton (decoded b) = Some []
             /\ the "sub_button" (Array [])
                  (members_of (encode_MenuButton b))).
Proof.
  intros buttons menuid resp Hid Hparse.
  split.
  { unfold GetMenu_Decode. rewrite Hparse.
    apply decode_GetMenu_response. exact Hid. }
  intros b.
  assert (Hsub : SubButton (decoded b) = Some (map decoded (children b))).
  { destruct b as [t n k u a p m [l | ]]; reflexivity. }
  pose proof (encode_MenuButton_sub_button b) as Hwire.
  repeat (split; [ destruct b; reflexivity | ]).
  split; [ exact Hsub | ].
  split; [ exact Hwire | ].
  intros Hnone. rewrite Hnone in Hsub, Hwire. split; assumption.
Qed.

(** *** Fields the payload does not carry *)

Lemma decode_MenuMatchRule_fields :
  forall rule r,
    decode_MenuMatchRule (Object rule) zero_MenuMatchRule = Some r ->
    (lacks "language" rule = true -> Language r = "")
    /\ forall v,
         (the "tag_id" (Str v) rule -> TagID r = v)
         /\ (the "sex" (Str v) rule -> Sex r = v)
         /\ (the "country" (Str v) rule -> Country r = v)
         /\ (the "province" (Str v) rule -> Province r = v)
         /\ (the "city" (Str v) rule -> City r = v)
         /\ (the "client_platform_type" (Str v) rule
             -> ClientPlatformType r = v).
Proof.
  intros rule r H. unfold decode_MenuMatchRule in H.
  cbn [zero_MenuMatchRule TagID Sex Country Province City ClientPlatformType
       Language] in H.
  destruct (string_field "tag_id" rule "") as [tag | ] eqn:Htag;
    [ | discriminate ].
  destruct (string_field "sex" rule "") as [sex | ] eqn:Hsex;
    [ | discriminate ].
  destruct (string_field "country" rule "") as [country | ] eqn:Hcountry;
    [ | discriminate ].
  destruct (string_field "province" rule "") as [province | ] eqn:Hprovince;
    [ | discriminate ].
  destruct (string_field "city" rule "") as [city | ] eqn:Hcity;
    [ | discriminate ].
  destruct (string_field "client_platform_type" rule "")
    as [platform | ] eqn:Hplatform; [ | discriminate ].
  destruct (string_field "language" rule "") as [language | ] eqn:Hlanguage;
    [ | discriminate ].
  injection H as <-. cbn.
  split.
  - intros Hl. rewrite string_field_lacks in Hlanguage by assumption.
    congruence.
  - intros v.
    repeat split; intros Hthe;
      match goal with
      | Hf : string_field ?key rule "" = Some ?x |- ?x = v =>
          rewrite (string_field_the key rule "" v Hthe) in Hf; congruence
      end.
Qed.

(** C8: when the decoder of the Get action reads a response whose first
    conditional menu has a match rule without the key [language], the rule
    in memory has the empty string as its [Language], and every field whose
    key the rule carries holds the string given under that key. And a button
    read from an object without the keys of [Type], [Key], [URL], [AppID],
    [PagePath] or [MediaID], such as a group, has the empty string in those
    fields. *)
Theorem GetMenu_absent_fields_decode_empty :
  (forall resp top entry others rule info,
      parse (string_of_bytes resp) = Some (Object top) ->
      the "conditionalmenu" (Array (Object entry :: others)) top ->
      the "matchrule" (Object rule) entry ->
      lacks "language" rule = true ->
      GetMenu_Decode resp zero_MenuInfo = Some info ->
      exists c cs r,
        MenuInfo_ConditionalMenu info = Some (c :: cs)
        /\ ConditionalMenu_MatchRule c = Some r
        /\ Language r = ""
        /\ forall v,
             (the "tag_id" (Str v) rule -> TagID r = v)
             /\ (the "sex" (Str v) rule -> Sex r = v)
             /\ (the "country" (Str v) rule -> Country r = v)
             /\ (the "province" (Str v) rule -> Province r = v)
             /\ (the "city" (Str v) rule -> City r = v)
             /\ (the "client_platform_type" (Str v) rule
                 -> ClientPlatformType r = v))
  /\ (forall ms b,
        decode_MenuButton (Object ms) zero_MenuButton = Some b ->
        (lacks "type" ms = true -> Type' b = "")
        /\ (lacks "key" ms = true -> Key b = "")
        /\ (lacks "url" ms = true -> URL b = "")
        /\ (lacks "appid" ms = true -> AppID b = "")
        /\ (lacks "pagepath" ms = true -> PagePath b = "")
        /\ (lacks "media_id" ms = true -> MediaID b = "")
        /\ forall n, the "name" (Str n) ms -> Name b = n).
Proof.
  split.
  - intros resp top entry others rule info Hparse Hcm Hrule Hlang H.
    unfold GetMenu_Decode in H. rewrite Hparse in H.
    unfold decode_MenuInfo in H.
    destruct (pointer_field "menu" zero_DefaultMenu decode_DefaultMenu top _)
      as [menu | ]; [ | discriminate ].
    rewrite slice_field_the with (items := Object entry :: others) in H
      by assumption.
    cbn [zero_MenuInfo MenuInfo_ConditionalMenu elements hd tl] in H.
    destruct (decode_ConditionalMenu (Object entry) zero_ConditionalMenu)
      as [c | ] eqn:Hc; [ | discriminate ].
    destruct (elements zero_ConditionalMenu decode_ConditionalMenu others [])
      as [cs | ]; [ | discriminate ].
    injection H as <-. exists c, cs.
    unfold decode_ConditionalMenu in Hc.
    destruct (slice_field "button" zero_MenuButton decode_MenuButton entry _)
      as [button | ]; [ | discriminate ].
    rewrite pointer_field_the with (members := rule) in Hc by assumption.
    cbn [zero_ConditionalMenu ConditionalMenu_MatchRule] in Hc.
    destruct (decode_MenuMatchRule (Object rule) zero_MenuMatchRule)
      as [r | ] eqn:Hr; [ | discriminate ].
    destruct (int64_field "menuid" entry _) as [menuid | ];
      [ | discriminate ].
    injection Hc as <-. exists r.
    destruct (decode_MenuMatchRule_fields rule r Hr) as [Hl Hv].
    repeat split; try reflexivity; [ apply Hl; exact Hlang | apply Hv .. ].
  - intros ms b H. cbn [decode_MenuButton] in H.
    cbn [zero_MenuButton Type' Name Key URL AppID PagePath MediaID SubButton]
      in H.
    destruct (string_field "type" ms "") as [t | ] eqn:Ht; [ | discriminate ].
    destruct (string_field "name" ms "") as [n | ] eqn:Hn; [ | discriminate ].
    destruct (string_field "key" ms "") as [k | ] eqn:Hk; [ | discriminate ].
    destruct (string_field "url" ms "") as [u | ] eqn:Hu; [ | discriminate ].
    destruct (string_field "appid" ms "") as [a | ] eqn:Ha;
      [ | discriminate ].
    destruct (string_field "pagepath" ms "") as [p | ] eqn:Hp;
      [ | discriminate ].
    destruct (string_field "media_id" ms "") as [m | ] eqn:Hm;
      [ | discriminate ].
    destruct (slice_field "sub_button" zero_MenuButton decode_MenuButton ms
                None) as [sub | ]; [ | discriminate ].
    injection H as <-. cbn.
    repeat split; intros H;
      try match goal with
          | Hf : string_field ?key ms "" = Some ?x |- ?x = "" =>
              rewrite (string_field_lacks key ms "" H) in Hf; congruence
          end.
    intros Hthe. rewrite (string_field_the "name" ms "" H Hthe) in Hn.
    congruence.
Qed.

End oa.

(** ** The dispatcher on a test double

    As the tests do with [helpers.NewMockHTTPClient], the dispatcher is run
    here on a transport that returns a canned response, on actions whose
    producers and decoder are canned too, and on a reading of gjson that
    covers well-formed payloads. *)

Module corp_test.

(** The store of the test: the URLs the transport was asked for, and the
    caller's destination, into which the action decodes. *)
Record Store : Type := {
  requests : list string;
  dest : string
}.

Definition empty_store : Store := {| requests := []; dest := "" |}.

(** Errors are told apart by their text. *)
Definition error : Type := string.

Definition Error (e : error) : string := e.

Definition fmt_Errorf (s : string) : error := s.

(** gjson on a payload: the result of a path is the value found, if any. *)
Definition Result : Type := option Json.value.

Definition gjson_ParseBytes (b : bytes) : Result :=
  Json.parse (string_of_bytes b).

Fixpoint first_member (key : string) (ms : list (string * Json.value))
    : Result :=
  match ms with
  | [] => None
  | (k, v) :: rest => if (k =? key)%string then Some v else first_member key rest
  end.

Definition gjson_Get (r : Result) (path : string) : Result :=
  match r with
  | Some (Json.Object ms) => first_member path ms
  | _ => None
  end.

Definition gjson_Exists (r : Result) : bool :=
  match r with
  | Some _ => true
  | None => false
  end.

Definition gjson_Int (r : Result) : Z :=
  match r with
  | Some (Json.Number n) => n
  | Some (Json.Bool true) => 1
  | Some (Json.Str s) =>
      match Json.read_number s with
      | Some (n, EmptyString) => n
      | _ => 0
      end
  | _ => 0
  end.

Definition gjson_String (r : Result) : string :=
  match r with
  | Some (Json.Str s) => s
  | Some (Json.Number n) => fmt_d n
  | Some (Json.Bool true) => "true"
  | Some (Json.Bool false) => "false"
  | _ => ""
  end.

(** The token of the test, and [json.Unmarshal] into it. *)
Record Token : Type := {
  access_token : string;
  expires_in : Z
}.

Definition new_Token : Token := {| access_token := ""; expires_in := 0 |}.

Definition json_Unmarshal (resp : bytes) (cur : Token)
    : Token * option error :=
  match Json.parse (string_of_bytes resp) with
  | Some (Json.Object ms) =>
      match Json.string_field "access_token" ms (access_token cur),
            Json.int64_field "expires_in" ms (expires_in cur) with
      | Some t, Some n => ({| access_token := t; expires_in := n |}, None)
      | _, _ => (cur, Some "json: cannot unmarshal")
      end
  | _ => (cur, Some "json: cannot unmarshal")
  end.

Abbreviation Action := (corp.Action Store error string).

Abbreviation HTTPClient := (corp.HTTPClient Store error unit unit string).

Abbreviation Corp := (corp.Corp Store error unit unit string).

Abbreviation Do :=
  (@corp.Do Store error fmt_Errorf unit unit string Result
     gjson_ParseBytes gjson_Get gjson_Int gjson_String).

Abbreviation AccessToken :=
  (@corp.AccessToken Store error fmt_Errorf unit unit string Result
     gjson_ParseBytes gjson_Get gjson_Int gjson_String
     Token new_Token json_Unmarshal
     "https://qyapi.weixin.qq.com/cgi-bin/gettoken").

(** The transport of the test: it notes the URL and returns what it was
    told to return. *)
Definition mock_client (resp : bytes) (err : option error) : HTTPClient :=
  {| corp.client_Do := fun _ _ url _ _ s =>
       ((resp, err), {| requests := requests s ++ [url]; dest := dest s |});
     corp.client_Upload := fun _ url _ _ s =>
       ((resp, err), {| requests := requests s ++ [url]; dest := dest s |}) |}.

(** An action of the test: a POST, or an upload when [upload] is set,
    whose producers return [body] and [form], and whose decoder writes the
    response to the destination and returns [decode_err]. *)
Definition mock_action (upload : bool) (body : bytes * option error)
    (form : string * option error) (decode_err : option error) : Action :=
  {| corp.Method := fun s => ("POST", s);
     corp.URL := fun accessToken s =>
       (("https://qyapi.weixin.qq.com/cgi-bin/menu/create?access_token="
           ++ accessToken)%string, s);
     corp.IsUpload := fun s => (upload, s);
     corp.Body := fun s => (body, s);
     corp.UploadForm := fun s => (form, s);
     corp.Decode := fun resp s =>
       (decode_err,
        {| requests := requests s; dest := string_of_bytes resp |}) |}.

Definition payload (text : string) : bytes :=
  bytes_of_string (Json.requote text).

Definition ok_response : bytes := payload "{'errcode':0,'errmsg':'ok'}".

Definition bare_response : bytes := payload "{'agentid':'1000005'}".

Definition error_response : bytes :=
  payload "{'errcode':40014,'errmsg':'invalid access_token'}".

Definition token_response : bytes :=
  payload "{'errcode':0,'errmsg':'ok','access_token':'TOKEN','expires_in':7200}".

Definition post_body : bytes := payload "{'agentid':'1000005'}".

Definition post_action : Action :=
  mock_action false (post_body, None) ("", None) None.

Definition corp_with (c : HTTPClient) : Corp :=
  @corp.New Store error unit unit string
    (fun _ s => ("0123456789abcdef", s)) (mock_client [] None)
    "CORPID" [corp.WithMockClient c].

Definition failing_body_action : Action :=
  mock_action false ([], Some "json: unsupported value") ("", None) None.

Definition failing_form_action : Action :=
  mock_action true ([], None) ("", Some "open media.jpg: no such file") None.

Definition run_on (resp : bytes) (err : option error) (action : Action)
    : option error * Store * list (corp.Event error unit unit string) :=
  Do (corp_with (mock_client resp err)) tt "ACCESS_TOKEN" action []
    empty_store.

(** The runs of the test: an error envelope; a success envelope; a payload
    with no envelope; a transport that fails; a body and a form that cannot
    be produced. *)
Definition rejected_run := run_on error_response None post_action.

Definition ok_run := run_on ok_response None post_action.

Definition bare_run := run_on bare_response None post_action.

Definition timeout_run :=
  run_on [] (Some "context deadline exceeded") post_action.

Definition failing_body_run := run_on ok_response None failing_body_action.

Definition failing_form_run := run_on ok_response None failing_form_action.

Definition token_run :=
  AccessToken (corp_with (mock_client token_response None)) tt "SECRET" []
    empty_store.

Abbreviation returns :=
  (@corp.returns Store error fmt_Errorf unit unit string Result
     gjson_ParseBytes gjson_Get gjson_Int gjson_String).

Abbreviation returns_exactly_one_of :=
  (@corp.returns_exactly_one_of Store error fmt_Errorf unit unit string Result
     gjson_ParseBytes gjson_Get gjson_Int gjson_String).

Lemma mock_Error_fmt_Errorf : forall s, Error (fmt_Errorf s) = s.
Proof. reflexivity. Qed.

Lemma mock_gjson_Int_missing :
  forall r, gjson_Exists r = false -> gjson_Int r = 0%Z.
Proof. intros [v | ] H; [ discriminate | reflexivity ]. Qed.

Lemma mock_writes_only_in_Decode :
  forall resp err upload body form decode_err,
    corp.writes_only_in_Decode dest (corp_with (mock_client resp err))
      (mock_action upload body form decode_err).
Proof.
  intros resp err upload body form decode_err.
  unfold corp.writes_only_in_Decode, corp.preserves.
  repeat split; intros; reflexivity.
Qed.

(** The transport answers with an error envelope. *)
Lemma Do_envelope_error_witness :
  exists e,
    corp.value rejected_run = Some e
    /\ Error e = "40014|invalid access_token"
    /\ corp.calls corp.is_Decode (corp.trace rejected_run) = 0.
Proof.
  apply (corp.Do_envelope_error Store error Error fmt_Errorf mock_Error_fmt_Errorf
           unit unit string Result
           gjson_ParseBytes gjson_Get gjson_Int gjson_String
           (corp_with (mock_client error_response None)) tt "ACCESS_TOKEN"
           post_action [] empty_store error_response).
  - vm_compute. reflexivity.
  - vm_compute. discriminate.
Defined.

(** The transport answers with [errcode] zero, and with no [errcode]. *)
Lemma Do_decodes_on_success_witness :
  (filter corp.is_Decode (corp.trace ok_run)
   = [corp.EDecode error unit unit string ok_response (corp.value ok_run)]
   /\ corp.calls corp.is_Decode (corp.trace ok_run) = 1
   /\ exists s1,
        corp.Decode _ _ _ post_action ok_response s1
        = (corp.value ok_run, corp.store_after ok_run))
  /\ (filter corp.is_Decode (corp.trace bare_run)
      = [corp.EDecode error unit unit string bare_response
           (corp.value bare_run)]
      /\ corp.calls corp.is_Decode (corp.trace bare_run) = 1
      /\ exists s1,
           corp.Decode _ _ _ post_action bare_response s1
           = (corp.value bare_run, corp.store_after bare_run)).
Proof.
  split.
  - apply (corp.Do_decodes_on_success Store error fmt_Errorf
             unit unit string Result
             gjson_ParseBytes gjson_Get gjson_Exists gjson_Int gjson_String
             mock_gjson_Int_missing
             (corp_with (mock_client ok_response None)) tt "ACCESS_TOKEN"
             post_action [] empty_store ok_response).
    + vm_compute. reflexivity.
    + right. vm_compute. reflexivity.
  - apply (corp.Do_decodes_on_success Store error fmt_Errorf
             unit unit string Result
             gjson_ParseBytes gjson_Get gjson_Exists gjson_Int gjson_String
             mock_gjson_Int_missing
             (corp_with (mock_client bare_response None)) tt "ACCESS_TOKEN"
             post_action [] empty_store bare_response).
    + vm_compute. reflexivity.
    + left. vm_compute. reflexivity.
Defined.

(** The body, and the upload form, cannot be produced. *)
Lemma Do_encoding_error_witness :
  (corp.value failing_body_run = Some "json: unsupported value"
   /\ corp.store_after failing_body_run = empty_store
   /\ corp.calls corp.is_transport (corp.trace failing_body_run) = 0
   /\ corp.calls corp.is_ParseBytes (corp.trace failing_body_run) = 0
   /\ corp.calls corp.is_Decode (corp.trace failing_body_run) = 0
   /\ List.length (corp.trace failing_body_run) = 2)
  /\ (corp.value failing_form_run = Some "open media.jpg: no such file"
      /\ corp.store_after failing_form_run = empty_store
      /\ corp.calls corp.is_transport (corp.trace failing_form_run) = 0
      /\ corp.calls corp.is_ParseBytes (corp.trace failing_form_run) = 0
      /\ corp.calls corp.is_Decode (corp.trace failing_form_run) = 0
      /\ List.length (corp.trace failing_form_run) = 2).
Proof.
  split.
  - apply (corp.Do_encoding_error Store error fmt_Errorf unit unit string
             Result gjson_ParseBytes gjson_Get gjson_Int gjson_String
             (corp_with (mock_client ok_response None)) tt "ACCESS_TOKEN"
             failing_body_action [] empty_store false empty_store
             "json: unsupported value" empty_store).
    + reflexivity.
    + exists []. reflexivity.
  - apply (corp.Do_encoding_error Store error fmt_Errorf unit unit string
             Result gjson_ParseBytes gjson_Get gjson_Int gjson_String
             (corp_with (mock_client ok_response None)) tt "ACCESS_TOKEN"
             failing_form_action [] empty_store true empty_store
             "open media.jpg: no such file" empty_store).
    + reflexivity.
    + exists "". reflexivity.
Defined.

(** The transport fails. *)
Lemma Do_transport_error_witness :
  corp.value timeout_run = Some "context deadline exceeded"
  /\ corp.calls corp.is_ParseBytes (corp.trace timeout_run) = 0
  /\ corp.calls corp.is_Decode (corp.trace timeout_run) = 0.
Proof.
  apply (corp.Do_transport_error Store error fmt_Errorf unit unit string
           Result gjson_ParseBytes gjson_Get gjson_Int gjson_String
           (corp_with (mock_client [] (Some "context deadline exceeded")))
           tt "ACCESS_TOKEN" post_action [] empty_store []
           "context deadline exceeded").
  vm_compute. reflexivity.
Defined.

(** C3, as the specification states it, fails where the body cannot be
    produced: the error returned is an encoding error, and the run is none
    of a transport error, an envelope error, a decode error and nil. *)
Lemma Do_listed_outcomes_counterexample :
  corp.value failing_body_run = Some "json: unsupported value"
  /\ returns failing_body_run corp.EncodingError
  /\ ~ returns_exactly_one_of corp.listed_outcomes failing_body_run.
Proof.
  split; [ reflexivity | split ].
  - exists "json: unsupported value". split; [ reflexivity | ].
    left. exists []. vm_compute. auto.
  - intros (o & Hin & Hret & _).
    destruct Hin as [<- | [<- | [<- | [<- | []]]]].
    + destruct Hret as (resp & e & _ & Htr). vm_compute in Htr. discriminate.
    + destruct Hret as (resp & Hin & _). vm_compute in Hin.
      destruct Hin as [H | [H | []]]; discriminate.
    + destruct Hret as (resp & e & _ & Hin). vm_compute in Hin.
      destruct Hin as [H | [H | []]]; discriminate.
    + vm_compute in Hret. discriminate.
Qed.

(** An error envelope: the destination is as it was. *)
Lemma Do_outcome_and_frame_witness :
  returns_exactly_one_of corp.all_outcomes rejected_run
  /\ (corp.value rejected_run <> None ->
      ~ returns rejected_run corp.DecodeError ->
      corp.calls corp.is_Decode (corp.trace rejected_run) = 0
      /\ dest (corp.store_after rejected_run) = dest empty_store).
Proof.
  apply (corp.Do_outcome_and_frame Store error fmt_Errorf unit unit string
           Result gjson_ParseBytes gjson_Get gjson_Int gjson_String
           string dest
           (corp_with (mock_client error_response None)) tt "ACCESS_TOKEN"
           post_action [] empty_store).
  apply mock_writes_only_in_Decode.
Defined.

(** A token is granted. *)
Lemma AccessToken_outcomes_witness :
  corp.value token_run
  = (Some {| access_token := "TOKEN"; expires_in := 7200 |}, None)
  /\ ~ (fst (corp.value token_run) <> None
        /\ snd (corp.value token_run) <> None).
Proof.
  split; [ reflexivity | ].
  apply (corp.AccessToken_outcomes Store error Error fmt_Errorf
           mock_Error_fmt_Errorf unit unit string Result
           gjson_ParseBytes gjson_Get gjson_Int gjson_String
           Token new_Token json_Unmarshal
           "https://qyapi.weixin.qq.com/cgi-bin/gettoken"
           (corp_with (mock_client token_response None)) tt "SECRET" []
           empty_store).
Defined.

(** The client of the test replaces the default one. *)
Lemma New_applies_options_in_order_witness :
  corp.client (corp_with (mock_client ok_response None))
  = mock_client ok_response None
  /\ Forall (corp.answered_by (mock_client ok_response None))
       (corp.trace ok_run)
  /\ Forall (corp.answered_by (mock_client token_response None))
       (corp.trace token_run).
Proof.
  split; [ | split ].
  - apply (f_equal corp.client
             (proj1 (proj2 (proj2 (proj2 (proj2
                (corp.New_applies_options_in_order Store error fmt_Errorf
                   unit unit string Result
                   gjson_ParseBytes gjson_Get gjson_Int gjson_String
                   Token new_Token json_Unmarshal
                   "https://qyapi.weixin.qq.com/cgi-bin/gettoken"
                   (fun _ s => ("0123456789abcdef", s)) (mock_client [] None)
                   "CORPID" [])))))
                (mock_client ok_response None))).
  - apply (proj2 (proj2 (proj2 (proj2 (proj2
             (corp.New_applies_options_in_order Store error fmt_Errorf
                unit unit string Result
                gjson_ParseBytes gjson_Get gjson_Int gjson_String
                Token new_Token json_Unmarshal
                "https://qyapi.weixin.qq.com/cgi-bin/gettoken"
                (fun _ s => ("0123456789abcdef", s)) (mock_client [] None)
                "CORPID" []))))) (mock_client ok_response None) tt
             "ACCESS_TOKEN" post_action "SECRET" [] empty_store).
  - apply (proj2 (proj2 (proj2 (proj2 (proj2
             (corp.New_applies_options_in_order Store error fmt_Errorf
                unit unit string Result
                gjson_ParseBytes gjson_Get gjson_Int gjson_String
                Token new_Token json_Unmarshal
                "https://qyapi.weixin.qq.com/cgi-bin/gettoken"
                (fun _ s => ("0123456789abcdef", s)) (mock_client [] None)
                "CORPID" []))))) (mock_client token_response None) tt
             "ACCESS_TOKEN" post_action "SECRET" [] empty_store).
Defined.

(** An upload selects the form, a post the body. *)
Lemma Do_selects_by_IsUpload_witness :
  corp.calls corp.is_Body (corp.trace ok_run) = 1
  /\ corp.calls corp.is_UploadForm (corp.trace ok_run) = 0
  /\ corp.calls corp.is_UploadForm (corp.trace failing_form_run) = 1
  /\ corp.calls corp.is_Body (corp.trace failing_form_run) = 0.
Proof.
  pose proof (corp.Do_selects_by_IsUpload Store error fmt_Errorf
                unit unit string Result
                gjson_ParseBytes gjson_Get gjson_Int gjson_String
                (corp_with (mock_client ok_response None)) tt "ACCESS_TOKEN"
                post_action [] empty_store) as (_ & Hform & Hbody & _).
  pose proof (corp.Do_selects_by_IsUpload Store error fmt_Errorf
                unit unit string Result
                gjson_ParseBytes gjson_Get gjson_Int gjson_String
                (corp_with (mock_client ok_response None)) tt "ACCESS_TOKEN"
                failing_form_action [] empty_store) as (_ & Hform' & Hbody' & _).
  repeat split; assumption.
Defined.

End corp_test.

(** ** The menu actions on the payloads of the tests *)

Module oa_test.

Import Json oa.

(** The buttons of TestCreateMenu. *)
Definition test_buttons : list MenuButton :=
  [ClickButton "今日歌曲" "V1001_TODAY_MUSIC";
   GroupButton "菜单"
     [ViewButton "搜索" "http://www.soso.com/";
      MPButton "wxa" "wx286b93c14bbf93aa" "pages/lunar/index"
        "http://mp.weixin.qq.com";
      ClickButton "赞一下我们" "V1001_GOOD"]].

(** The response of TestGetMenu, ['] standing for the double quote. *)
Definition test_response : bytes :=
  bytes_of_string (requote "{
    'menu': {
      'button': [
        {
          'type': 'click',
          'name': '今日歌曲',
          'key': 'V1001_TODAY_MUSIC',
          'sub_button': []
        }
      ],
      'menuid': 208396938
    },
    'conditionalmenu': [
      {
        'button': [
          {
            'type': 'click',
            'name': '今日歌曲',
            'key': 'V1001_TODAY_MUSIC',
            'sub_button': []
          },
          {
            'name': '菜单',
            'sub_button': [
              {
                'type': 'view',
                'name': '搜索',
                'url': 'http://www.soso.com/',
                'sub_button': []
              },
              {
                'type': 'view',
                'name': '视频',
                'url': 'http://v.qq.com/',
                'sub_button': []
              },
              {
                'type': 'click',
                'name': '赞一下我们',
                'key': 'V1001_GOOD',
                'sub_button': []
              }
            ]
          }
        ],
        'matchrule': {
          'tag_id': '2',
          'sex': '1',
          'country': '中国',
          'province': '广东',
          'city': '广州',
          'client_platform_type': '2'
        },
        'menuid': 208396993
      }
    ]
  }").

(** The destination TestGetMenu expects. *)
Definition leaf (type name key url : string) : MenuButton :=
  Build_MenuButton type name key url "" "" "" (Some []).

Definition test_rule : MenuMatchRule :=
  {| TagID := "2"; Sex := "1"; Country := "中国"; Province := "广东";
     City := "广州"; ClientPlatformType := "2"; Language := "" |}.

Definition test_group : MenuButton :=
  Build_MenuButton "" "菜单" "" "" "" "" ""
    (Some [leaf "view" "搜索" "" "http://www.soso.com/";
           leaf "view" "视频" "" "http://v.qq.com/";
           leaf "click" "赞一下我们" "V1001_GOOD" ""]).

Definition test_dest : MenuInfo :=
  {| MenuInfo_DefaultMenu :=
       Some {| DefaultMenu_Button :=
                 Some [leaf "click" "今日歌曲" "V1001_TODAY_MUSIC" ""];
               DefaultMenu_MenuID := 208396938 |};
     MenuInfo_ConditionalMenu :=
       Some [{| ConditionalMenu_Button :=
                  Some [leaf "click" "今日歌曲" "V1001_TODAY_MUSIC" "";
                        test_group];
                ConditionalMenu_MatchRule := Some test_rule;
                ConditionalMenu_MenuID := 208396993 |}] |}.

(** The response as a value, and the parts of it the claims speak of. *)
Definition test_top : list (string * value) :=
  match parse (string_of_bytes test_response) with
  | Some v => members_of v
  | None => []
  end.

Definition test_conditional : list value :=
  match lookup "conditionalmenu" test_top with
  | Some (Array items) => items
  | _ => []
  end.

Definition test_entry : list (string * value) := members_of (hd Null test_conditional).

Definition test_matchrule : list (string * value) :=
  match lookup "matchrule" test_entry with
  | Some v => members_of v
  | None => []
  end.

Definition test_group_members : list (string * value) :=
  match lookup "button" test_entry with
  | Some (Array [_; group]) => members_of group
  | _ => []
  end.

(** A response of the Get action that carries the buttons of
    TestCreateMenu as they are written on the wire. *)
Definition created_response : bytes :=
  bytes_of_string (requote
    "{'menu': {'button': [
        {'type':'click','name':'今日歌曲','key':'V1001_TODAY_MUSIC',
         'sub_button':[]},
        {'name':'菜单','sub_button':[
           {'type':'view','name':'搜索','url':'http://www.soso.com/',
            'sub_button':[]},
           {'type':'miniprogram','name':'wxa','url':'http://mp.weixin.qq.com',
            'appid':'wx286b93c14bbf93aa','pagepath':'pages/lunar/index',
            'sub_button':[]},
           {'type':'click','name':'赞一下我们','key':'V1001_GOOD',
            'sub_button':[]}]}],
      'menuid': 208396938}}").

(** TestGetMenu: the decoder fills the destination as the test expects. *)
Example TestGetMenu :
  GetMenu_Decode test_response zero_MenuInfo = Some test_dest.
Proof. vm_compute. reflexivity. Qed.

(** TestCreateMenu, and the scenario of the specification: the body has
    two top-level buttons, the second with three buttons under it. *)
Example TestCreateMenu_body :
  exists first second sub,
    lookup "button" (members_of (CreateMenu_Body test_buttons))
    = Some (Array [first; second])
    /\ lookup "sub_button" (members_of second) = Some (Array sub)
    /\ List.length sub = 3
    /\ lookup "sub_button" (members_of first) = Some (Array []).
Proof. do 3 eexists. vm_compute. repeat split; reflexivity. Qed.

(** The buttons of TestCreateMenu, read back as the default menu. *)
Lemma CreateMenu_GetMenu_round_trip_witness :
  in_int64 208396938 = true
  /\ parse (string_of_bytes created_response)
     = Some (GetMenu_response (CreateMenu_Body test_buttons) 208396938)
  /\ GetMenu_Decode created_response zero_MenuInfo
     = Some {| MenuInfo_DefaultMenu :=
                 Some {| DefaultMenu_Button := Some (map decoded test_buttons);
                         DefaultMenu_MenuID := 208396938 |};
               MenuInfo_ConditionalMenu := None |}.
Proof.
  split; [ reflexivity | ].
  split; [ vm_compute; reflexivity | ].
  apply (proj1 (CreateMenu_GetMenu_round_trip test_buttons 208396938
                  created_response eq_refl
                  ltac:(vm_compute; reflexivity))).
Defined.

(** The response of TestGetMenu: its match rule has no [language], and its
    second conditional button is a group. *)
Lemma GetMenu_absent_fields_decode_empty_witness :
  (exists c cs r,
      MenuInfo_ConditionalMenu test_dest = Some (c :: cs)
      /\ ConditionalMenu_MatchRule c = Some r
      /\ Language r = ""
      /\ TagID r = "2" /\ Sex r = "1" /\ Country r = "中国"
      /\ Province r = "广东" /\ City r = "广州"
      /\ ClientPlatformType r = "2")
  /\ (Type' test_group = "" /\ Key test_group = "" /\ URL test_group = ""
      /\ AppID test_group = "" /\ PagePath test_group = ""
      /\ MediaID test_group = "" /\ Name test_group = "菜单").
Proof.
  destruct GetMenu_absent_fields_decode_empty as [Hrule Hbutton].
  split.
  - destruct (Hrule test_response test_top test_entry (tl test_conditional)
                test_matchrule test_dest)
      as (c & cs & r & Hcs & Hr & Hlang & Hv).
    + vm_compute. reflexivity.
    + apply lookup_the. vm_compute. reflexivity.
    + apply lookup_the. vm_compute. reflexivity.
    + vm_compute. reflexivity.
    + vm_compute. reflexivity.
    + exists c, cs, r.
      split; [ exact Hcs | ]. split; [ exact Hr | ]. split; [ exact Hlang | ].
      split; [ apply (Hv "2"); apply lookup_the; vm_compute; reflexivity | ].
      split; [ apply (Hv "1"); apply lookup_the; vm_compute; reflexivity | ].
      split; [ apply (Hv "中国"); apply lookup_the; vm_compute; reflexivity | ].
      split; [ apply (Hv "广东"); apply lookup_the; vm_compute; reflexivity | ].
      split; [ apply (Hv "广州"); apply lookup_the; vm_compute; reflexivity | ].
      apply (Hv "2"); apply lookup_the; vm_compute; reflexivity.
  - destruct (Hbutton test_group_members test_group)
      as (Ht & Hk & Hu & Ha & Hp & Hm & Hn).
    + vm_compute. reflexivity.
    + split; [ apply Ht; vm_compute; reflexivity | ].
      split; [ apply Hk; vm_compute; reflexivity | ].
      split; [ apply Hu; vm_compute; reflexivity | ].
      split; [ apply Ha; vm_compute; reflexivity | ].
      split; [ apply Hp; vm_compute; reflexivity | ].
      split; [ apply Hm; vm_compute; reflexivity | ].
      apply Hn. apply lookup_the. vm_compute. reflexivity.
Defined.

End oa_test.

(** ** More runs on the test double *)

Module corp_more_test.

Import corp_test.

Definition default_nonce : corp.Eff Store string :=
  fun s => ("0123456789abcdef", s).

Definition default_client : HTTPClient := mock_client [] None.

Abbreviation New :=
  (@corp.New Store error unit unit string (fun _ => default_nonce)
     default_client).

Abbreviation option_of :=
  (@corp.option_of Store error unit unit string unit (fun _ => default_client)).

Abbreviation OAuth2URL :=
  (@corp.OAuth2URL Store error unit unit string
     "https://open.weixin.qq.com/connect/oauth2/authorize"
     string (fun scope => scope)).

Abbreviation QRCodeAuthURL :=
  (@corp.QRCodeAuthURL Store error unit unit string
     "https://open.work.weixin.qq.com/wwopen/sso/qrConnect").

Definition test_corp : Corp := New "CORPID" [].

(** A dispatch that succeeds ends with [Decode]. *)
Lemma Do_nil_only_after_Decode_witness :
  corp.value ok_run = None
  /\ exists resp before,
       corp.transport_of (corp.trace ok_run) = Some (resp, None)
       /\ gjson_Int (gjson_Get (gjson_ParseBytes resp) "errcode") = 0%Z
       /\ corp.trace ok_run
          = before ++ [corp.EDecode error unit unit string resp None]
       /\ corp.calls corp.is_Decode before = 0.
Proof.
  split; [ reflexivity | ].
  apply (corp.Do_nil_only_after_Decode Store error fmt_Errorf unit unit
           string Result gjson_ParseBytes gjson_Get gjson_Int gjson_String
           (corp_with (mock_client ok_response None)) tt "ACCESS_TOKEN"
           post_action [] empty_store).
  reflexivity.
Defined.

(** A server configuration and a client, in either order. *)
Lemma New_options_commute_witness :
  New "CORPID"
    (map option_of
       [corp.ServerConfig "TOKEN" "AESKEY";
        corp.MockClient (mock_client ok_response None)])
  = New "CORPID"
      (map option_of
         [corp.MockClient (mock_client ok_response None);
          corp.ServerConfig "TOKEN" "AESKEY"]).
Proof.
  apply (corp.New_options_commute Store error unit unit string unit
           (fun _ => default_nonce) default_client (fun _ => default_client)
           "CORPID" []
           (corp.ServerConfig "TOKEN" "AESKEY")
           (corp.MockClient (mock_client ok_response None)) []).
  discriminate.
Defined.

(** A mock client followed by a client: the mock is as if not given. *)
Lemma New_later_option_wins_witness :
  New "CORPID"
    (map option_of
       [corp.MockClient (mock_client ok_response None); corp.Client tt])
  = New "CORPID" (map option_of [corp.Client tt]).
Proof.
  apply (corp.New_later_option_wins Store error unit unit string unit
           (fun _ => default_nonce) default_client (fun _ => default_client)
           "CORPID" []
           (corp.MockClient (mock_client ok_response None))
           (corp.Client tt) []).
  reflexivity.
Defined.

(** An encoded redirect URL. *)
Lemma OAuth2URL_injective_witness :
  OAuth2URL test_corp "snsapi_base" "https%3A%2F%2Fexample.com%2Fcb" "STATE"
  = "https://open.weixin.qq.com/connect/oauth2/authorize?appid=CORPID&redirect_uri=https%3A%2F%2Fexample.com%2Fcb&response_type=code&scope=snsapi_base&state=STATE#wechat_redirect"
  /\ ("https%3A%2F%2Fexample.com%2Fcb" = "https%3A%2F%2Fexample.com%2Fcb"
      /\ "snsapi_base" = "snsapi_base" /\ "STATE" = "STATE").
Proof.
  split; [ reflexivity | ].
  apply (corp.OAuth2URL_injective Store error unit unit string
           "https://open.weixin.qq.com/connect/oauth2/authorize"
           string (fun scope => scope) test_corp
           "snsapi_base" "snsapi_base"
           "https%3A%2F%2Fexample.com%2Fcb" "https%3A%2F%2Fexample.com%2Fcb"
           "STATE" "STATE");
    reflexivity.
Defined.

(** Without the condition, two calls can return one URL: an [&] in the
    scope of one is read as the start of the state of the other. *)
Example OAuth2URL_ambiguous_with_ampersand :
  OAuth2URL test_corp "snsapi_base&state=A" "cb" "B"
  = OAuth2URL test_corp "snsapi_base" "cb" "A&state=B".
Proof. reflexivity. Qed.

Lemma QRCodeAuthURL_injective_witness :
  QRCodeAuthURL test_corp "1000005" "https%3A%2F%2Fexample.com%2Fcb" "STATE"
  = "https://open.work.weixin.qq.com/wwopen/sso/qrConnect?appid=CORPID&agentid=1000005&redirect_uri=https%3A%2F%2Fexample.com%2Fcb&state=STATE"
  /\ ("1000005" = "1000005"
      /\ "https%3A%2F%2Fexample.com%2Fcb" = "https%3A%2F%2Fexample.com%2Fcb"
      /\ "STATE" = "STATE").
Proof.
  split; [ reflexivity | ].
  apply (corp.QRCodeAuthURL_injective Store error unit unit string
           "https://open.work.weixin.qq.com/wwopen/sso/qrConnect" test_corp
           "1000005" "1000005"
           "https%3A%2F%2Fexample.com%2Fcb" "https%3A%2F%2Fexample.com%2Fcb"
           "STATE" "STATE");
    reflexivity.
Defined.

End corp_more_test.

(** ** The decoders of the agent actions on payloads *)

Module agent_test.

Import Json agent.

Definition payload (text : string) : bytes := bytes_of_string (requote text).


Definition numeric_agent : bytes :=
  payload "{'errcode':0,'errmsg':'ok','agentid':1000005,'name':'HR'}".

Definition numeric_list : bytes :=
  payload "{'errcode':0,'errmsg':'ok','agentlist':[
     {'agentid':1000005,'name':'HR','square_logo_url':'https://p.qlogo.cn/a'}]}".


Definition members (resp : bytes) : list (string * value) :=
  match parse (string_of_bytes resp) with
  | Some v => members_of v
  | None => []
  end.

Definition items_of (resp : bytes) : list value :=
  match lookup "agentlist" (members resp) with
  | Some (Array items) => items
  | _ => []
  end.

Definition previous_result : ResultAgentGet :=
  {| AgentID := "1000005"; Name := "HR"; SquareLogoURL := "";
     Description := ""; Close := 0; RedirectDomain := "";
     ReportLocationFlag := 0; ISReportenter := 0; HomeURL := "";
     AllowUserInfos_of := None; AllowPartys_of := None;
     AllowTags_of := None |}.



Lemma AgentGet_Decode_numeric_agentid_witness :
  AgentGet_Decode 64 numeric_agent previous_result = None.
Proof.
  apply (AgentGet_Decode_numeric_agentid 64 numeric_agent
           (members numeric_agent) 1000005 previous_result).
  - vm_compute. reflexivity.
  - apply lookup_the. vm_compute. reflexivity.
Defined.


Lemma AgentList_Decode_numeric_agentid_witness :
  AgentList_Decode numeric_list zero_ResultAgentList = None.
Proof.
  apply (AgentList_Decode_numeric_agentid numeric_list (members numeric_list)
           (items_of numeric_list)
           (members_of (hd Null (items_of numeric_list))) 1000005
           zero_ResultAgentList).
  - vm_compute. reflexivity.
  - apply lookup_the. vm_compute. reflexivity.
  - left. vm_compute. reflexivity.
  - apply lookup_the. vm_compute. reflexivity.
Defined.


End agent_test.
